(** * ThesisUMLSystem: rule-based extraction of a UML class model

    A shallow embedding of [ThesisUMLSystem] from [src/app.py]: the ontology
    check, the multiplicity detector, the five extraction rules of [process]
    and the Graphviz emitter, followed by the properties of the
    specification that were checked against them. *)

From Stdlib Require Import Ascii String.
From stdpp Require Import gmap strings list fin_maps fin_sets.

Local Open Scope string_scope.
Local Open Scope list_scope.

(** ** Python strings

    [str.lower] and [str.capitalize] act on the ASCII letters; every other
    character is kept as it is.  Outside ASCII the only character that
    Python lowers to an ASCII letter is the Kelvin sign (to [k]), and no
    word the program compares a lowered string against contains a [k], so
    those membership tests are the ones of the source. *)

Module PyStr.

Definition is_upper (c : ascii) : bool :=
  (65 <=? nat_of_ascii c)%nat && (nat_of_ascii c <=? 90)%nat.

Definition is_lower (c : ascii) : bool :=
  (97 <=? nat_of_ascii c)%nat && (nat_of_ascii c <=? 122)%nat.

Definition lower_char (c : ascii) : ascii :=
  if is_upper c then ascii_of_nat (nat_of_ascii c + 32) else c.

Definition upper_char (c : ascii) : ascii :=
  if is_lower c then ascii_of_nat (nat_of_ascii c - 32) else c.

Fixpoint lower (s : string) : string :=
  match s with
  | EmptyString => EmptyString
  | String c r => String (lower_char c) (lower r)
  end.

(** [s.capitalize()]: first character upper-cased, the rest lower-cased. *)
Definition capitalize (s : string) : string :=
  match s with
  | EmptyString => EmptyString
  | String c r => String (upper_char c) (lower r)
  end.

(** [sep.join(l)] *)
Fixpoint join (sep : string) (l : list string) : string :=
  match l with
  | [] => EmptyString
  | [x] => x
  | x :: r => x +:+ sep +:+ join sep r
  end.

End PyStr.

Import PyStr.

(** ** Parsed tokens (the spaCy collaborator)

    A token carries its position [i] in the document and the position
    [head_i] of its governing token; [tok_children] and [tok_head] are
    spaCy's [Token.children] (the tokens governed by this one, in document
    order, the token itself excluded) and [Token.head]. *)

Record Token := mkToken {
  i : nat;
  text : string;
  lemma_ : string;
  pos_ : string;
  tag_ : string;
  dep_ : string;
  head_i : nat
}.

Definition Doc := list Token.

Definition tok_children (doc : Doc) (t : Token) : list Token :=
  filter (λ c, head_i c = i t ∧ i c ≠ i t) doc.

Definition tok_head (doc : Doc) (t : Token) : Token :=
  default t (head (filter (λ h, i h = head_i t) doc)).

(** [[c for c in token.children if c.dep_ == d]] *)
Definition children_with_dep (doc : Doc) (t : Token) (d : string) : list Token :=
  filter (λ c, dep_ c = d) (tok_children doc t).

(** ** WordNet senses (the NLTK collaborator) *)

Record Synset := mkSynset { pos : string }.

(** ** The class registry and the relationships *)

Record ClassEntry := mkEntry {
  attributes : gset string;
  methods : gset string
}.

(** [{'attributes': set(), 'methods': set()}] *)
Definition new_entry : ClassEntry := mkEntry ∅ ∅.

Definition Relationship : Type := string * string * string * string.

Definition rel_source (r : Relationship) : string := r.1.1.1.
Definition rel_kind (r : Relationship) : string := r.1.1.2.
Definition rel_target (r : Relationship) : string := r.1.2.
Definition rel_label (r : Relationship) : string := r.2.

(** ** The Graphviz collaborator: a [Digraph] is the sequence of the calls
    made on it. *)

Inductive Stmt :=
  | GraphAttr (kv : list (string * string))
  | NodeAttr (kv : list (string * string))
  | Node (name label : string)
  | Edge (tail_name head_name : string) (kv : list (string * string)).

Record Digraph := mkDigraph {
  comment : string;
  body : list Stmt
}.

Definition is_edge (s : Stmt) : bool :=
  match s with Edge _ _ _ => true | _ => false end.

Definition edges_of (g : Digraph) : list Stmt := List.filter is_edge (body g).

(** ** The engine *)

Record ThesisUMLSystem := mkSystem {
  nlp : option (string → Doc);
  classes : gmap string ClassEntry;
  relationships : list Relationship;
  ignored_verbs : gset string
}.

(** [ThesisUMLSystem.__init__] *)
Definition init (nlp_model : option (string → Doc)) : ThesisUMLSystem :=
  mkSystem nlp_model ∅ []
    {[ "be"; "have"; "include"; "consist"; "contain"; "involve" ]}.

Definition set_classes (self : ThesisUMLSystem) (cl : gmap string ClassEntry)
  : ThesisUMLSystem :=
  mkSystem (nlp self) cl (relationships self) (ignored_verbs self).

Definition set_relationships (self : ThesisUMLSystem) (rs : list Relationship)
  : ThesisUMLSystem :=
  mkSystem (nlp self) (classes self) rs (ignored_verbs self).

(** [self.relationships.append(r)] *)
Definition append_rel (self : ThesisUMLSystem) (r : Relationship) : ThesisUMLSystem :=
  set_relationships self (relationships self ++ [r]).

(** [if c not in self.classes: self.classes[c] = {'attributes': set(), 'methods': set()}] *)
Definition register (c : string) (cl : gmap string ClassEntry) : gmap string ClassEntry :=
  if decide (c ∈ dom cl) then cl else <[c := new_entry]> cl.

(** [self.classes[c]['attributes'].add(a)].  The subscript raises [KeyError]
    on an absent key; every call in [process] is under a membership test or
    after a registration of [c], where [alter] and the subscript agree. *)
Definition add_attribute (c a : string) (cl : gmap string ClassEntry)
  : gmap string ClassEntry :=
  alter (λ e, mkEntry ({[ a ]} ∪ attributes e) (methods e)) c cl.

(** [self.classes[c]['methods'].add(m)] *)
Definition add_method (c m : string) (cl : gmap string ClassEntry)
  : gmap string ClassEntry :=
  alter (λ e, mkEntry (attributes e) ({[ m ]} ∪ methods e)) c cl.

Definition quantifier_words : list string :=
  ["many"; "multiple"; "list"; "set"; "all"; "collection"].

(** The loop of [detect_multiplicity] over [token.children]. *)
Fixpoint detect_multiplicity_loop (cs : list Token) : string :=
  match cs with
  | [] => "1"
  | child :: rest =>
      if decide (lower (text child) ∈ quantifier_words) then "1..*"
      else if decide (tag_ child = "NNS") then "0..*"
      else detect_multiplicity_loop rest
  end.

(** [ThesisUMLSystem.detect_multiplicity] *)
Definition detect_multiplicity (doc : Doc) (token : Token) : string :=
  detect_multiplicity_loop (tok_children doc token).

Section Engine.

(** [wordnet.synsets]: [None] when the lookup raises. *)
Variable synsets : string → option (list Synset).

(** [ThesisUMLSystem.check_ontology] *)
Definition check_ontology (word : string) : bool :=
  match synsets word with
  | Some senses =>
      match senses with
      | [] => true
      | _ => existsb (λ s, bool_decide (pos s = "n")) senses
      end
  | None => true
  end.

(** Rule 1: class identification. *)
Definition rule1 (self : ThesisUMLSystem) (token : Token) : ThesisUMLSystem :=
  if decide (pos_ token ∈ ["NOUN"; "PROPN"]
             ∧ dep_ token ∈ ["nsubj"; "dobj"; "pobj"; "nsubjpass"]) then
    let lemma := lower (lemma_ token) in
    if decide (lemma ∉ ["user"; "data"]) then
      if check_ontology lemma then
        set_classes self (register (capitalize (lemma_ token)) (classes self))
      else self
    else self
  else self.

(** Rule 2: generalization (the body under [token.lemma_ == "be"]). *)
Definition rule2 (doc : Doc) (self : ThesisUMLSystem) (token : Token)
  : ThesisUMLSystem :=
  let subj := children_with_dep doc token "nsubj" in
  let attr := children_with_dep doc token "attr" in
  match subj, attr with
  | s0 :: _, a0 :: _ =>
      let c := capitalize (lemma_ s0) in
      let p := capitalize (lemma_ a0) in
      if decide (c ∈ dom (classes self) ∧ p ∈ dom (classes self)) then
        append_rel self (c, "Generalization", p, EmptyString)
      else self
  | _, _ => self
  end.

(** Rule 3: composition, or demotion of the part to an attribute. *)
Definition rule3 (doc : Doc) (self : ThesisUMLSystem) (token : Token)
  : ThesisUMLSystem :=
  let owners := children_with_dep doc token "nsubj" in
  let objs := children_with_dep doc token "dobj" in
  match owners, objs with
  | owner0 :: _, obj0 :: _ =>
      let o := capitalize (lemma_ owner0) in
      let mult := detect_multiplicity doc obj0 in
      let mlabel := if decide (mult ≠ "1") then mult else EmptyString in
      if decide (o ∈ dom (classes self)) then
        let obj_c := capitalize (lemma_ obj0) in
        if decide (obj_c ∈ dom (classes self)) then
          append_rel self (o, "Composition", obj_c, mlabel)
        else
          set_classes self (add_attribute o (text obj0) (classes self))
      else self
  | _, _ => self
  end.

(** Rule 4: association. *)
Definition rule4 (doc : Doc) (self : ThesisUMLSystem) (token : Token)
  : ThesisUMLSystem :=
  let subjs := children_with_dep doc token "nsubj" in
  match subjs with
  | subj0 :: _ =>
      let s := capitalize (lemma_ subj0) in
      if decide (s ∈ dom (classes self)) then
        let self1 := set_classes self (add_method s (lemma_ token) (classes self)) in
        let dobjs := children_with_dep doc token "dobj" in
        match dobjs with
        | dobj0 :: _ =>
            let o := capitalize (lemma_ dobj0) in
            if decide (o ∈ dom (classes self1) ∧ s ≠ o) then
              append_rel self1 (s, "Association", o, lemma_ token)
            else self1
        | [] => self1
        end
      else self
  | [] => self
  end.

(** The [if] / [elif] / [elif] chain of Rules 2, 3 and 4. *)
Definition rules234 (doc : Doc) (self : ThesisUMLSystem) (token : Token)
  : ThesisUMLSystem :=
  if decide (lemma_ token = "be") then rule2 doc self token
  else if decide (lemma_ token ∈ ["have"; "contain"; "include"; "consist"]) then
    rule3 doc self token
  else if decide (pos_ token = "VERB" ∧ lemma_ token ∉ ignored_verbs self) then
    rule4 doc self token
  else self.

(** Rule 5: passive voice. *)
Definition rule5 (doc : Doc) (self : ThesisUMLSystem) (token : Token)
  : ThesisUMLSystem :=
  if decide (dep_ token = "agent" ∧ pos_ (tok_head doc token) = "VERB") then
    let actual_agent := children_with_dep doc token "pobj" in
    let verb := tok_head doc token in
    let passive_subj := children_with_dep doc verb "nsubjpass" in
    match actual_agent, passive_subj with
    | agent0 :: _, psubj0 :: _ =>
        let act := capitalize (lemma_ agent0) in
        let rec := capitalize (lemma_ psubj0) in
        let cl := register rec (register act (classes self)) in
        append_rel (set_classes self (add_method act (lemma_ verb) cl))
          (act, "Association", rec, lemma_ verb)
    | _, _ => self
    end
  else self.

(** The body of [for token in doc]. *)
Definition process_token (doc : Doc) (self : ThesisUMLSystem) (token : Token)
  : ThesisUMLSystem :=
  rule5 doc (rules234 doc (rule1 self token) token) token.

(** The extraction pass: the loop run over the tokens [ts] of [doc]. *)
Definition extract (doc : Doc) (self : ThesisUMLSystem) (ts : list Token)
  : ThesisUMLSystem :=
  foldl (process_token doc) self ts.

(** The compartments of a node label. *)
Definition attrs_text (e : ClassEntry) : string :=
  if decide (attributes e = ∅) then EmptyString
  else join "\l" ((λ a, "- " +:+ a) <$> elements (attributes e)) +:+ "\l".

Definition methods_text (e : ClassEntry) : string :=
  if decide (methods e = ∅) then EmptyString
  else join "\l" ((λ m, "+ " +:+ m +:+ "()") <$> elements (methods e)) +:+ "\l".

Definition node_of (kv : string * ClassEntry) : Stmt :=
  Node kv.1 ("{ " +:+ kv.1 +:+ " | " +:+ attrs_text kv.2 +:+ " | "
             +:+ methods_text kv.2 +:+ " }").

(** The [dot.edge] call made for one relationship. *)
Definition edge_of (r : Relationship) : Stmt :=
  let '(s, r_type, t, label) := r in
  if decide (r_type = "Generalization") then
    Edge s t [("arrowhead", "onormal"); ("label", EmptyString)]
  else if decide (r_type = "Composition") then
    Edge s t [("dir", "both"); ("arrowtail", "diamond");
              ("arrowhead", "none"); ("label", label)]
  else
    Edge s t [("arrowhead", "vee"); ("label", label)].

(** [unique_rels = set(self.relationships)] *)
Definition unique_rels (self : ThesisUMLSystem) : gset Relationship :=
  list_to_set (relationships self).

(** [ThesisUMLSystem.generate_graphviz].  The registry is walked in the
    order of [map_to_list] and the sets in the order of [elements]. *)
Definition generate_graphviz (self : ThesisUMLSystem) : Digraph :=
  mkDigraph "Thesis UML"
    ([ GraphAttr [("rankdir", "BT"); ("splines", "ortho");
                  ("nodesep", "0.8"); ("ranksep", "0.8")];
       NodeAttr [("shape", "record"); ("style", "filled");
                 ("fillcolor", "#FEFECE"); ("fontname", "Helvetica");
                 ("fontsize", "12")] ]
     ++ (node_of <$> map_to_list (classes self))
     ++ (edge_of <$> elements (unique_rels self))).

(** [ThesisUMLSystem.process]: the returned diagram ([None] without a
    parser model) and the engine as the call leaves it. *)
Definition process (self : ThesisUMLSystem) (txt : string)
  : option Digraph * ThesisUMLSystem :=
  match nlp self with
  | None => (None, self)
  | Some parse =>
      let doc := parse txt in
      let self' := extract doc (set_relationships (set_classes self ∅) []) doc in
      (Some (generate_graphviz self'), self')
  end.

End Engine.

(** ** Predicates of the specification *)

(** Both endpoints of every collected relationship are keys of the registry. *)
Definition endpoints_registered (self : ThesisUMLSystem) : Prop :=
  ∀ r, r ∈ relationships self →
       rel_source r ∈ dom (classes self) ∧ rel_target r ∈ dom (classes self).

(** The relationships of kind "Generalization" among [rs]. *)
Definition generalizations (rs : list Relationship) : list Relationship :=
  filter (λ r, rel_kind r = "Generalization") rs.

(** ** Atomic updates of the engine

    Every rule of [process] changes the engine through four updates only:
    a registration, an attribute insertion, a method insertion and the
    append of a relationship.  [step doc] records each of them with the
    token of [doc] that the inserted text comes from. *)

(** The shapes of the tuples that the rules append. *)
Definition rel_well_formed (doc : Doc) (r : Relationship) : Prop :=
  (rel_kind r = "Generalization" ∧ rel_label r = EmptyString)
  ∨ (rel_kind r = "Composition" ∧ rel_label r ∈ [EmptyString; "0..*"; "1..*"])
  ∨ (rel_kind r = "Association"
     ∧ ∃ t, t ∈ doc ∧ pos_ t = "VERB" ∧ rel_label r = lemma_ t).

Inductive step (doc : Doc) (s : ThesisUMLSystem) : ThesisUMLSystem → Prop :=
  | step_register (t : Token) :
      t ∈ doc →
      dep_ t ∈ ["nsubj"; "dobj"; "pobj"; "nsubjpass"] →
      step doc s (set_classes s (register (capitalize (lemma_ t)) (classes s)))
  | step_attribute (c : string) (t : Token) :
      c ∈ dom (classes s) →
      t ∈ doc →
      dep_ t = "dobj" →
      step doc s (set_classes s (add_attribute c (text t) (classes s)))
  | step_method (c : string) (t : Token) :
      c ∈ dom (classes s) →
      t ∈ doc →
      pos_ t = "VERB" →
      step doc s (set_classes s (add_method c (lemma_ t) (classes s)))
  | step_append (r : Relationship) :
      rel_source r ∈ dom (classes s) →
      rel_target r ∈ dom (classes s) →
      rel_well_formed doc r →
      step doc s (append_rel s r).

(** An entry grows: nothing leaves its two sets. *)
Definition entry_le (e e' : ClassEntry) : Prop :=
  attributes e ⊆ attributes e' ∧ methods e ⊆ methods e'.

(** A registry grows: every class stays, and its entry grows. *)
Definition registry_le (cl cl' : gmap string ClassEntry) : Prop :=
  ∀ n e, cl !! n = Some e → ∃ e', cl' !! n = Some e' ∧ entry_le e e'.

(** Every class name is the capitalized lemma of a token of [doc] in a
    subject or object position. *)
Definition names_from_doc (doc : Doc) (self : ThesisUMLSystem) : Prop :=
  ∀ n, n ∈ dom (classes self) →
       ∃ t, t ∈ doc ∧ dep_ t ∈ ["nsubj"; "dobj"; "pobj"; "nsubjpass"]
            ∧ n = capitalize (lemma_ t).

(** Every attribute is the text of a dobj token of [doc], every method the
    lemma of a VERB token of [doc]. *)
Definition members_from_doc (doc : Doc) (self : ThesisUMLSystem) : Prop :=
  ∀ n e, classes self !! n = Some e →
    (∀ a, a ∈ attributes e → ∃ t, t ∈ doc ∧ dep_ t = "dobj" ∧ a = text t)
    ∧ (∀ m, m ∈ methods e → ∃ t, t ∈ doc ∧ pos_ t = "VERB" ∧ m = lemma_ t).

(** The names of the nodes declared in a diagram, in declaration order. *)
Definition node_names (g : Digraph) : list string :=
  omap (λ s, match s with Node n _ => Some n | _ => None end) (body g).

(** ** The validation widget

    The counting part of the F1 computation: [exp] is the set read from
    the ground-truth field, [generated_classes] the registry of the last
    run.  [None] is the branch that asks to generate a diagram first. *)

Record Counts := mkCounts { tp : nat; fp : nat; fn : nat }.

Definition metric_counts (exp : gset string)
    (generated_classes : gmap string ClassEntry) : option Counts :=
  if decide (generated_classes = ∅) then None
  else
    let det : gset string := set_map lower (dom generated_classes) in
    Some (mkCounts (size (exp ∩ det)) (size (det ∖ exp)) (size (exp ∖ det))).

(** ** Sample parses *)

Module Samples.

(** An inventory that knows no word at all. *)
Definition no_senses (w : string) : option (list Synset) := Some [].

(** "The bank has customers' many accounts." *)
Definition bank_doc : Doc :=
  [ mkToken 0 "The" "the" "DET" "DT" "det" 1;
    mkToken 1 "bank" "bank" "NOUN" "NN" "nsubj" 2;
    mkToken 2 "has" "have" "VERB" "VBZ" "ROOT" 2;
    mkToken 3 "customers" "customer" "NOUN" "NNS" "poss" 6;
    mkToken 4 "'" "'" "PART" "POS" "case" 3;
    mkToken 5 "many" "many" "ADJ" "JJ" "amod" 6;
    mkToken 6 "accounts" "account" "NOUN" "NNS" "dobj" 2;
    mkToken 7 "." "." "PUNCT" "." "punct" 2 ].

Definition bank_accounts : Token :=
  mkToken 6 "accounts" "account" "NOUN" "NNS" "dobj" 2.

Definition bank_parser (txt : string) : Doc := bank_doc.

(** "The Car has an engine." *)
Definition car_has : Token := mkToken 2 "has" "have" "VERB" "VBZ" "ROOT" 2.
Definition car_car : Token := mkToken 1 "Car" "car" "NOUN" "NN" "nsubj" 2.
Definition car_engine : Token := mkToken 4 "engine" "engine" "NOUN" "NN" "dobj" 2.

Definition car_doc : Doc :=
  [ mkToken 0 "The" "the" "DET" "DT" "det" 1;
    car_car;
    car_has;
    mkToken 3 "an" "an" "DET" "DT" "det" 4;
    car_engine;
    mkToken 5 "." "." "PUNCT" "." "punct" 2 ].

Definition default_ignored : gset string :=
  {[ "be"; "have"; "include"; "consist"; "contain"; "involve" ]}.

(** An engine whose registry holds the class Car only. *)
Definition car_only : ThesisUMLSystem :=
  mkSystem None {[ "Car" := new_entry ]} [] default_ignored.

(** An engine whose registry holds the classes Car and Engine. *)
Definition car_and_engine : ThesisUMLSystem :=
  mkSystem None (<[ "Engine" := new_entry ]> {[ "Car" := new_entry ]}) []
    default_ignored.

(** "The Dog is an Animal." *)
Definition dog_is : Token := mkToken 2 "is" "be" "AUX" "VBZ" "ROOT" 2.
Definition dog_dog : Token := mkToken 1 "Dog" "dog" "NOUN" "NN" "nsubj" 2.
Definition dog_animal : Token := mkToken 4 "Animal" "animal" "NOUN" "NN" "attr" 2.

Definition dog_doc : Doc :=
  [ mkToken 0 "The" "the" "DET" "DT" "det" 1;
    dog_dog;
    dog_is;
    mkToken 3 "an" "an" "DET" "DT" "det" 4;
    dog_animal;
    mkToken 5 "." "." "PUNCT" "." "punct" 2 ].

Definition dog_only : ThesisUMLSystem :=
  mkSystem None {[ "Dog" := new_entry ]} [] default_ignored.

Definition dog_parser (txt : string) : Doc := dog_doc.

(** "The Account is managed by the Administrator." *)
Definition acct_account : Token :=
  mkToken 1 "Account" "account" "NOUN" "NN" "nsubjpass" 3.
Definition acct_managed : Token :=
  mkToken 3 "managed" "manage" "VERB" "VBN" "ROOT" 3.
Definition acct_by : Token := mkToken 4 "by" "by" "ADP" "IN" "agent" 3.
Definition acct_admin : Token :=
  mkToken 6 "Administrator" "administrator" "NOUN" "NN" "pobj" 4.

Definition acct_doc : Doc :=
  [ mkToken 0 "The" "the" "DET" "DT" "det" 1;
    acct_account;
    mkToken 2 "is" "be" "AUX" "VBZ" "auxpass" 3;
    acct_managed;
    acct_by;
    mkToken 5 "the" "the" "DET" "DT" "det" 6;
    acct_admin;
    mkToken 7 "." "." "PUNCT" "." "punct" 3 ].

Definition acct_parser (txt : string) : Doc := acct_doc.

(** A parse in which the verb governs two subjects, "user" and "admin". *)
Definition team_user : Token := mkToken 1 "user" "user" "NOUN" "NN" "nsubj" 4.
Definition team_admin : Token := mkToken 3 "admin" "admin" "NOUN" "NN" "nsubj" 4.
Definition team_manage : Token := mkToken 4 "manage" "manage" "VERB" "VBP" "ROOT" 4.

Definition team_doc : Doc :=
  [ mkToken 0 "The" "the" "DET" "DT" "det" 1;
    team_user;
    mkToken 2 "the" "the" "DET" "DT" "det" 3;
    team_admin;
    team_manage;
    mkToken 5 "accounts" "account" "NOUN" "NNS" "dobj" 4;
    mkToken 6 "." "." "PUNCT" "." "punct" 4 ].

Definition team_parser (txt : string) : Doc := team_doc.

(** A parse in which the verb governs two objects, "data" and "accounts". *)
Definition store_admin : Token := mkToken 4 "admin" "admin" "NOUN" "NN" "nsubj" 5.
Definition store_stores : Token := mkToken 5 "stores" "store" "VERB" "VBZ" "ROOT" 5.
Definition store_data : Token := mkToken 6 "data" "data" "NOUN" "NNS" "dobj" 5.
Definition store_accounts : Token :=
  mkToken 7 "accounts" "account" "NOUN" "NNS" "dobj" 5.

Definition store_doc : Doc :=
  [ mkToken 0 "Accounts" "account" "NOUN" "NNS" "nsubj" 1;
    mkToken 1 "exist" "exist" "VERB" "VBP" "ROOT" 1;
    mkToken 2 "." "." "PUNCT" "." "punct" 1;
    mkToken 3 "The" "the" "DET" "DT" "det" 4;
    store_admin;
    store_stores;
    store_data;
    store_accounts;
    mkToken 8 "." "." "PUNCT" "." "punct" 5 ].

Definition store_parser (txt : string) : Doc := store_doc.

(** "Hello there." : a parse without subject or object. *)
Definition hello_doc : Doc :=
  [ mkToken 0 "Hello" "hello" "INTJ" "UH" "ROOT" 0;
    mkToken 1 "there" "there" "ADV" "RB" "advmod" 0;
    mkToken 2 "." "." "PUNCT" "." "punct" 0 ].

Definition hello_parser (txt : string) : Doc := hello_doc.

(** "Accounts exist. The admin stores accounts." *)
Definition keep_doc : Doc :=
  [ mkToken 0 "Accounts" "account" "NOUN" "NNS" "nsubj" 1;
    mkToken 1 "exist" "exist" "VERB" "VBP" "ROOT" 1;
    mkToken 2 "." "." "PUNCT" "." "punct" 1;
    mkToken 3 "The" "the" "DET" "DT" "det" 4;
    mkToken 4 "admin" "admin" "NOUN" "NN" "nsubj" 5;
    mkToken 5 "stores" "store" "VERB" "VBZ" "ROOT" 5;
    mkToken 6 "accounts" "account" "NOUN" "NNS" "dobj" 5;
    mkToken 7 "." "." "PUNCT" "." "punct" 5 ].

Definition keep_parser (txt : string) : Doc := keep_doc.

End Samples.

(** Refutes a hypothesis [H : x ∈ l] for closed [x] and [l]. *)
Ltac closed_not_elem H :=
  repeat (apply elem_of_cons in H as [H|H]; [discriminate H|]);
  by apply elem_of_nil in H.

(** ** The multiplicity detector *)

Lemma detect_multiplicity_loop_skip (pre rest : list Token) :
  (∀ x, x ∈ pre → (lower (text x) ∉ quantifier_words) ∧ tag_ x ≠ "NNS") →
  detect_multiplicity_loop (pre ++ rest) = detect_multiplicity_loop rest.
Proof.
  induction pre as [|x pre IH]; intros Hpre; [done|].
  destruct (Hpre x) as [Hq Hn]; [left|].
  cbn [app detect_multiplicity_loop].
  rewrite decide_False by done. rewrite decide_False by done.
  apply IH. intros y Hy. apply Hpre. by right.
Qed.

(** C1, as the specification states it, fails: in "customers' many
    accounts" the token "accounts" has the plural child "customers" before
    the quantifier child "many", and the detector answers "0..*". *)
Lemma detect_multiplicity_plural_child_first :
  (∃ c, c ∈ tok_children Samples.bank_doc Samples.bank_accounts
        ∧ lower (text c) ∈ quantifier_words)
  ∧ (∃ c, c ∈ tok_children Samples.bank_doc Samples.bank_accounts
          ∧ tag_ c = "NNS")
  ∧ detect_multiplicity Samples.bank_doc Samples.bank_accounts = "0..*"
  ∧ detect_multiplicity Samples.bank_doc Samples.bank_accounts ≠ "1..*".
Proof.
  split; [|split; [|split]].
  - exists (mkToken 5 "many" "many" "ADJ" "JJ" "amod" 6).
    split; [vm_compute; right; left | vm_compute; left].
  - exists (mkToken 3 "customers" "customer" "NOUN" "NNS" "poss" 6).
    split; [vm_compute; left | reflexivity].
  - reflexivity.
  - vm_compute. discriminate.
Qed.

(** C1 (amended): the children are scanned once, in order, and the first
    child that is a quantifier word or carries the tag NNS decides: "1..*"
    if it is a quantifier word (also when it carries NNS itself), "0..*" if
    it only carries NNS. *)
Theorem detect_multiplicity_first_match (doc : Doc) (token : Token)
    (pre : list Token) (c : Token) (post : list Token) :
  tok_children doc token = pre ++ c :: post →
  (∀ x, x ∈ pre → (lower (text x) ∉ quantifier_words) ∧ tag_ x ≠ "NNS") →
  (lower (text c) ∈ quantifier_words → detect_multiplicity doc token = "1..*")
  ∧ (lower (text c) ∉ quantifier_words → tag_ c = "NNS" →
     detect_multiplicity doc token = "0..*").
Proof.
  intros Hch Hpre. unfold detect_multiplicity.
  rewrite Hch, (detect_multiplicity_loop_skip pre (c :: post) Hpre).
  cbn [detect_multiplicity_loop]. split.
  - intros Hq. by rewrite decide_True.
  - intros Hq Hn. rewrite decide_False by done. by rewrite decide_True.
Qed.

Lemma detect_multiplicity_first_match_witness :
  detect_multiplicity
    [ mkToken 0 "many" "many" "ADJ" "JJ" "amod" 1;
      mkToken 1 "accounts" "account" "NOUN" "NNS" "dobj" 1 ]
    (mkToken 1 "accounts" "account" "NOUN" "NNS" "dobj" 1) = "1..*".
Proof.
  refine (proj1 (detect_multiplicity_first_match _ _ []
            (mkToken 0 "many" "many" "ADJ" "JJ" "amod" 1) [] _ _) _).
  - reflexivity.
  - intros x Hx. inversion Hx.
  - vm_compute. left.
Defined.

(** ** The ontology check *)

(** C6: [check_ontology] answers [True] when the lookup raises and when it
    reports no sense, and answers [False] exactly when the lookup succeeds
    with at least one sense and no noun sense among them. *)
Theorem check_ontology_fail_open (synsets : string → option (list Synset))
    (word : string) :
  (synsets word = None → check_ontology synsets word = true)
  ∧ (synsets word = Some [] → check_ontology synsets word = true)
  ∧ (check_ontology synsets word = false ↔
     ∃ senses, synsets word = Some senses ∧ senses ≠ []
               ∧ ∀ s, s ∈ senses → pos s ≠ "n").
Proof.
  unfold check_ontology. split; [|split].
  - by intros ->.
  - by intros ->.
  - destruct (synsets word) as [senses|] eqn:Hs.
    + destruct senses as [|s0 rest].
      * split; [done|]. intros (l & Hl & Hne & _). congruence.
      * split.
        -- intros Hex. exists (s0 :: rest). split; [done|]. split; [done|].
           intros s Hs' Hn.
           assert (existsb (λ s, bool_decide (pos s = "n")) (s0 :: rest) = true)
             as Ht; [|congruence].
           apply existsb_exists. exists s. split.
           ++ by apply list_elem_of_In.
           ++ by apply bool_decide_eq_true.
        -- intros (l & Hl & _ & Hall). injection Hl as <-.
           apply not_true_is_false. intros Hex.
           apply existsb_exists in Hex as (s & Hin & Hn).
           apply bool_decide_eq_true in Hn.
           by apply (Hall s); [apply list_elem_of_In|].
    + split; [done|]. intros (l & Hl & _). congruence.
Qed.

Lemma check_ontology_fail_open_witness :
  check_ontology (λ _, None) "engine" = true
  ∧ check_ontology Samples.no_senses "engine" = true
  ∧ check_ontology (λ _, Some [mkSynset "v"; mkSynset "a"]) "quickly" = false.
Proof.
  split; [|split].
  - by apply (proj1 (check_ontology_fail_open (λ _, None) "engine")).
  - by apply (proj1 (proj2 (check_ontology_fail_open Samples.no_senses "engine"))).
  - apply (proj2 (proj2 (check_ontology_fail_open
             (λ _, Some [mkSynset "v"; mkSynset "a"]) "quickly"))).
    exists [mkSynset "v"; mkSynset "a"]. split; [reflexivity|].
    split; [discriminate|].
    intros s Hs. apply elem_of_cons in Hs as [->|Hs]; [discriminate|].
    apply elem_of_cons in Hs as [->|Hs]; [discriminate|]. inversion Hs.
Defined.

(** ** The entry guard of [process] *)

(** C10: without a parser model [process] returns [None] at once and leaves
    the registry and the relationships as they were. *)
Theorem process_without_model (synsets : string → option (list Synset))
    (self : ThesisUMLSystem) (txt : string) :
  nlp self = None →
  process synsets self txt = (None, self).
Proof. unfold process. by intros ->. Qed.

Lemma process_without_model_witness :
  process Samples.no_senses
    (mkSystem None {[ "Car" := new_entry ]}
       [("Car", "Composition", "Wheel", "0..*")] ∅) "The Car has wheels."
  = (None,
     mkSystem None {[ "Car" := new_entry ]}
       [("Car", "Composition", "Wheel", "0..*")] ∅).
Proof. by apply process_without_model. Defined.

(** ** The registry operations *)

Lemma dom_register (c : string) (cl : gmap string ClassEntry) :
  dom (register c cl) = {[ c ]} ∪ dom cl.
Proof.
  unfold register. case_decide as Hc.
  - set_solver.
  - by rewrite dom_insert_L.
Qed.

Lemma dom_add_method (c m : string) (cl : gmap string ClassEntry) :
  dom (add_method c m cl) = dom cl.
Proof. unfold add_method. by rewrite dom_alter_L. Qed.

Lemma dom_add_attribute (c a : string) (cl : gmap string ClassEntry) :
  dom (add_attribute c a cl) = dom cl.
Proof. unfold add_attribute. by rewrite dom_alter_L. Qed.

Lemma register_lookup_old (c n : string) (e : ClassEntry)
    (cl : gmap string ClassEntry) :
  cl !! n = Some e → register c cl !! n = Some e.
Proof.
  intros Hn. unfold register. case_decide as Hc; [done|].
  rewrite lookup_insert_ne; [done|].
  intros ->. apply Hc, elem_of_dom. by exists e.
Qed.

Lemma register_lookup_new (c n : string) (cl : gmap string ClassEntry) :
  n ∉ dom cl → n ∈ dom (register c cl) →
  n = c ∧ register c cl !! n = Some new_entry.
Proof.
  intros Hn Hin. rewrite dom_register in Hin.
  assert (n = c) as -> by set_solver. split; [done|].
  unfold register. rewrite decide_False by done. by rewrite lookup_insert_eq.
Qed.

(** ** What each rule does to the registry keys *)

Section Keys.

Variable doc : Doc.

Lemma rule1_keys synsets self token :
  dom (classes self) ⊆ dom (classes (rule1 synsets self token)).
Proof.
  unfold rule1. repeat case_decide; try done.
  destruct (check_ontology _ _); [|done].
  cbn. rewrite dom_register. set_solver.
Qed.

Lemma rule2_classes self token :
  classes (rule2 doc self token) = classes self.
Proof.
  unfold rule2.
  destruct (children_with_dep doc token "nsubj") as [|s0 ?]; [done|].
  destruct (children_with_dep doc token "attr") as [|a0 ?]; [done|].
  by case_decide.
Qed.

Lemma rule3_keys self token :
  dom (classes (rule3 doc self token)) = dom (classes self).
Proof.
  unfold rule3.
  destruct (children_with_dep doc token "nsubj") as [|o0 ?]; [done|].
  destruct (children_with_dep doc token "dobj") as [|b0 ?]; [done|].
  repeat case_decide; try done.
  cbn. by rewrite dom_add_attribute.
Qed.

Lemma rule4_keys self token :
  dom (classes (rule4 doc self token)) = dom (classes self).
Proof.
  unfold rule4.
  destruct (children_with_dep doc token "nsubj") as [|s0 ?]; [done|].
  case_decide; [|done].
  destruct (children_with_dep doc token "dobj") as [|d0 ?].
  - cbn. by rewrite dom_add_method.
  - case_decide; cbn; by rewrite dom_add_method.
Qed.

Lemma rules234_keys self token :
  dom (classes (rules234 doc self token)) = dom (classes self).
Proof.
  unfold rules234. repeat case_decide.
  - by rewrite rule2_classes.
  - apply rule3_keys.
  - apply rule4_keys.
  - done.
Qed.

Lemma rule5_keys self token :
  dom (classes self) ⊆ dom (classes (rule5 doc self token)).
Proof.
  unfold rule5. case_decide; [|done].
  destruct (children_with_dep doc token "pobj") as [|a0 ?]; [done|].
  destruct (children_with_dep doc (tok_head doc token) "nsubjpass")
    as [|p0 ?]; [done|].
  cbn. rewrite dom_add_method, !dom_register. set_solver.
Qed.

Lemma process_token_keys synsets self token :
  dom (classes self) ⊆ dom (classes (process_token synsets doc self token)).
Proof.
  unfold process_token.
  etrans; [apply (rule1_keys synsets self token)|].
  etrans; [|apply rule5_keys].
  by rewrite rules234_keys.
Qed.

Lemma extract_keys synsets ts self :
  dom (classes self) ⊆ dom (classes (extract synsets doc self ts)).
Proof.
  revert self. induction ts as [|t ts IH]; intros self; [done|].
  cbn. etrans; [apply (process_token_keys synsets self t)|]. apply IH.
Qed.

Lemma extract_app synsets self ts1 ts2 :
  extract synsets doc self (ts1 ++ ts2)
  = extract synsets doc (extract synsets doc self ts1) ts2.
Proof. unfold extract. apply foldl_app. Qed.

(** ** The endpoint invariant, rule by rule *)

Lemma endpoints_set_classes self cl :
  dom (classes self) ⊆ dom cl →
  endpoints_registered self → endpoints_registered (set_classes self cl).
Proof.
  intros Hsub Hinv r Hr. destruct (Hinv r Hr) as [Hs Ht].
  cbn. split; by apply Hsub.
Qed.

Lemma endpoints_append self s k t l :
  s ∈ dom (classes self) → t ∈ dom (classes self) →
  endpoints_registered self →
  endpoints_registered (append_rel self (s, k, t, l)).
Proof.
  intros Hs Ht Hinv r Hr. cbn in Hr.
  apply elem_of_app in Hr as [Hr|Hr]; [by apply Hinv|].
  apply list_elem_of_singleton in Hr as ->. done.
Qed.

Lemma rule1_endpoints synsets self token :
  endpoints_registered self → endpoints_registered (rule1 synsets self token).
Proof.
  intros Hinv. unfold rule1. repeat case_decide; try done.
  destruct (check_ontology _ _); [|done].
  apply endpoints_set_classes; [|done]. rewrite dom_register. set_solver.
Qed.

Lemma rule2_endpoints self token :
  endpoints_registered self → endpoints_registered (rule2 doc self token).
Proof.
  intros Hinv. unfold rule2.
  destruct (children_with_dep doc token "nsubj") as [|s0 ?]; [done|].
  destruct (children_with_dep doc token "attr") as [|a0 ?]; [done|].
  case_decide as Hreg; [|done].
  destruct Hreg. by apply endpoints_append.
Qed.

Lemma rule3_endpoints self token :
  endpoints_registered self → endpoints_registered (rule3 doc self token).
Proof.
  intros Hinv. unfold rule3.
  destruct (children_with_dep doc token "nsubj") as [|o0 ?]; [done|].
  destruct (children_with_dep doc token "dobj") as [|b0 ?]; [done|].
  case_decide; [|done]. case_decide.
  - by apply endpoints_append.
  - apply endpoints_set_classes; [|done]. by rewrite dom_add_attribute.
Qed.

Lemma rule4_endpoints self token :
  endpoints_registered self → endpoints_registered (rule4 doc self token).
Proof.
  intros Hinv. unfold rule4.
  destruct (children_with_dep doc token "nsubj") as [|s0 ?]; [done|].
  case_decide as Hs; [|done].
  assert (endpoints_registered
            (set_classes self
               (add_method (capitalize (lemma_ s0)) (lemma_ token) (classes self))))
    as Hinv1.
  { apply endpoints_set_classes; [|done]. by rewrite dom_add_method. }
  destruct (children_with_dep doc token "dobj") as [|d0 ?]; [done|].
  case_decide as Ho; [|done].
  destruct Ho as [Ho _]. apply endpoints_append; [|done..].
  cbn. by rewrite dom_add_method.
Qed.

Lemma rules234_endpoints self token :
  endpoints_registered self → endpoints_registered (rules234 doc self token).
Proof.
  intros Hinv. unfold rules234. repeat case_decide.
  - by apply rule2_endpoints.
  - by apply rule3_endpoints.
  - by apply rule4_endpoints.
  - done.
Qed.

Lemma rule5_endpoints self token :
  endpoints_registered self → endpoints_registered (rule5 doc self token).
Proof.
  intros Hinv. unfold rule5. case_decide; [|done].
  destruct (children_with_dep doc token "pobj") as [|a0 ?]; [done|].
  destruct (children_with_dep doc (tok_head doc token) "nsubjpass")
    as [|p0 ?]; [done|].
  apply endpoints_append.
  - cbn. rewrite dom_add_method, !dom_register. set_solver.
  - cbn. rewrite dom_add_method, !dom_register. set_solver.
  - apply endpoints_set_classes; [|done].
    rewrite dom_add_method, !dom_register. set_solver.
Qed.

Lemma process_token_endpoints synsets self token :
  endpoints_registered self →
  endpoints_registered (process_token synsets doc self token).
Proof.
  intros Hinv. unfold process_token.
  by apply rule5_endpoints, rules234_endpoints, rule1_endpoints.
Qed.

Lemma extract_endpoints synsets ts self :
  endpoints_registered self →
  endpoints_registered (extract synsets doc self ts).
Proof.
  revert self. induction ts as [|t ts IH]; intros self Hinv; [done|].
  cbn. by apply IH, process_token_endpoints.
Qed.

End Keys.

(** ** Rule 3 *)

(** C2: at a token whose lemma is one of have / contain / include / consist,
    with a first nsubj child (the owner) and a first dobj child (the
    object) and the owner's capitalized lemma registered: if the object's
    capitalized lemma is registered too, the Composition tuple with the
    multiplicity label (empty for "1") is appended and the registry is
    untouched; otherwise the object's surface text joins the owner's
    attributes and the relationships are untouched. *)
Theorem rule3_composition_or_demotion (doc : Doc) (self : ThesisUMLSystem)
    (token owner0 obj0 : Token) (owners objs : list Token) :
  lemma_ token ∈ ["have"; "contain"; "include"; "consist"] →
  children_with_dep doc token "nsubj" = owner0 :: owners →
  children_with_dep doc token "dobj" = obj0 :: objs →
  capitalize (lemma_ owner0) ∈ dom (classes self) →
  let o := capitalize (lemma_ owner0) in
  let obj_c := capitalize (lemma_ obj0) in
  let mult := detect_multiplicity doc obj0 in
  let self' := rules234 doc self token in
  lemma_ token ≠ "be"
  ∧ (obj_c ∈ dom (classes self) →
     relationships self'
     = relationships self
       ++ [(o, "Composition", obj_c, if decide (mult = "1") then EmptyString else mult)]
     ∧ classes self' = classes self)
  ∧ (obj_c ∉ dom (classes self) →
     relationships self' = relationships self
     ∧ ∃ e, classes self !! o = Some e
            ∧ classes self'
              = <[o := mkEntry ({[ text obj0 ]} ∪ attributes e) (methods e)]>
                  (classes self)).
Proof.
  intros Hlem Hown Hobj Ho o obj_c mult self'.
  assert (lemma_ token ≠ "be") as Hbe.
  { intros Heq. rewrite Heq in Hlem. by closed_not_elem Hlem. }
  split; [done|].
  subst self'. unfold rules234.
  rewrite (decide_False _ _ Hbe), (decide_True _ _ Hlem).
  unfold rule3. rewrite Hown, Hobj. fold o obj_c mult.
  rewrite decide_True by done.
  split; intros Hreg.
  - rewrite decide_True by done. cbn. split; [|done].
    do 3 f_equal. by repeat case_decide.
  - rewrite decide_False by done. cbn. split; [done|].
    apply elem_of_dom in Ho as [e He]. exists e. split; [done|].
    unfold add_attribute. apply map_eq. intros n.
    rewrite lookup_alter, lookup_insert.
    fold o in He. case_decide; subst; by rewrite ?He.
Qed.

Lemma rule3_composition_or_demotion_witness :
  (relationships (rules234 Samples.car_doc Samples.car_and_engine Samples.car_has)
   = [("Car", "Composition", "Engine", EmptyString)]
   ∧ classes (rules234 Samples.car_doc Samples.car_and_engine Samples.car_has)
     = classes Samples.car_and_engine)
  ∧ (relationships (rules234 Samples.car_doc Samples.car_only Samples.car_has) = []
     ∧ ∃ e, classes Samples.car_only !! "Car" = Some e
            ∧ classes (rules234 Samples.car_doc Samples.car_only Samples.car_has)
              = <["Car" := mkEntry ({[ "engine" ]} ∪ attributes e) (methods e)]>
                  (classes Samples.car_only)).
Proof.
  split.
  - refine (proj1 (proj2 (rule3_composition_or_demotion Samples.car_doc
              Samples.car_and_engine Samples.car_has Samples.car_car
              Samples.car_engine [] [] _ _ _ _)) _).
    + set_solver.
    + reflexivity.
    + reflexivity.
    + apply elem_of_dom. by eexists.
    + apply elem_of_dom. by eexists.
  - refine (proj2 (proj2 (rule3_composition_or_demotion Samples.car_doc
              Samples.car_only Samples.car_has Samples.car_car
              Samples.car_engine [] [] _ _ _ _)) _).
    + set_solver.
    + reflexivity.
    + reflexivity.
    + apply elem_of_dom. by eexists.
    + by apply not_elem_of_dom.
Defined.

(** ** Rule 2 *)

Lemma generalizations_snoc_other (rs : list Relationship) (s k t l : string) :
  k ≠ "Generalization" →
  generalizations (rs ++ [(s, k, t, l)]) = generalizations rs.
Proof.
  intros Hk. unfold generalizations.
  rewrite filter_app, filter_cons_False by done.
  by rewrite filter_nil, app_nil_r.
Qed.

Lemma rule1_relationships synsets self token :
  relationships (rule1 synsets self token) = relationships self.
Proof.
  unfold rule1. repeat case_decide; try done.
  by destruct (check_ontology _ _).
Qed.

Lemma rule3_generalizations doc self token :
  generalizations (relationships (rule3 doc self token))
  = generalizations (relationships self).
Proof.
  unfold rule3.
  destruct (children_with_dep doc token "nsubj") as [|o0 ?]; [done|].
  destruct (children_with_dep doc token "dobj") as [|b0 ?]; [done|].
  case_decide; [|done]. case_decide; [|done].
  cbn. by apply generalizations_snoc_other.
Qed.

Lemma rule4_generalizations doc self token :
  generalizations (relationships (rule4 doc self token))
  = generalizations (relationships self).
Proof.
  unfold rule4.
  destruct (children_with_dep doc token "nsubj") as [|s0 ?]; [done|].
  case_decide; [|done].
  destruct (children_with_dep doc token "dobj") as [|d0 ?]; [done|].
  case_decide; [|done].
  cbn. by apply generalizations_snoc_other.
Qed.

Lemma rule5_generalizations doc self token :
  generalizations (relationships (rule5 doc self token))
  = generalizations (relationships self).
Proof.
  unfold rule5. case_decide; [|done].
  destruct (children_with_dep doc token "pobj") as [|a0 ?]; [done|].
  destruct (children_with_dep doc (tok_head doc token) "nsubjpass")
    as [|p0 ?]; [done|].
  cbn. by apply generalizations_snoc_other.
Qed.

(** C5: Rule 2 never changes the registry; at a token with lemma "be", a
    first nsubj child and a first attr child whose capitalized lemmas are
    both registered, it appends the Generalization tuple with an empty
    label; and when that condition fails the token's whole step leaves the
    Generalization relationships as they were. *)
Theorem rule2_generalization (synsets : string → option (list Synset))
    (doc : Doc) (self : ThesisUMLSystem) (token : Token) :
  let s1 := rule1 synsets self token in
  let fires (c p : string) :=
    lemma_ token = "be"
    ∧ (∃ s0 ss a0 aa,
         children_with_dep doc token "nsubj" = s0 :: ss
         ∧ children_with_dep doc token "attr" = a0 :: aa
         ∧ c = capitalize (lemma_ s0) ∧ p = capitalize (lemma_ a0))
    ∧ c ∈ dom (classes s1) ∧ p ∈ dom (classes s1) in
  (∀ st, classes (rule2 doc st token) = classes st)
  ∧ (∀ c p, fires c p →
       relationships (rules234 doc s1 token)
       = relationships s1 ++ [(c, "Generalization", p, EmptyString)]
       ∧ classes (rules234 doc s1 token) = classes s1)
  ∧ ((¬ ∃ c p, fires c p) →
       generalizations (relationships (process_token synsets doc self token))
       = generalizations (relationships self)).
Proof.
  intros s1 fires. split; [|split].
  - intros st. apply rule2_classes.
  - intros c p (Hbe & (s0 & ss & a0 & aa & Hs & Ha & -> & ->) & Hc & Hp).
    unfold rules234. rewrite (decide_True _ _ Hbe).
    unfold rule2. rewrite Hs, Ha. by rewrite decide_True.
  - intros Hno. unfold process_token. fold s1.
    rewrite rule5_generalizations.
    rewrite <- (rule1_relationships synsets self token). fold s1.
    unfold rules234. case_decide as Hbe.
    + unfold rule2.
      destruct (children_with_dep doc token "nsubj") as [|s0 ss] eqn:Hs; [done|].
      destruct (children_with_dep doc token "attr") as [|a0 aa] eqn:Ha; [done|].
      case_decide as Hreg; [|done].
      destruct Hreg as [Hc Hp]. exfalso. apply Hno.
      exists (capitalize (lemma_ s0)), (capitalize (lemma_ a0)).
      split; [done|]. split; [|done]. by exists s0, ss, a0, aa.
    + case_decide; [apply rule3_generalizations|].
      case_decide; [apply rule4_generalizations|done].
Qed.

Lemma rule2_generalization_witness :
  generalizations
    (relationships (process_token Samples.no_senses Samples.dog_doc
                      Samples.dog_only Samples.dog_is))
  = generalizations (relationships Samples.dog_only).
Proof.
  refine (proj2 (proj2 (rule2_generalization Samples.no_senses Samples.dog_doc
            Samples.dog_only Samples.dog_is)) _).
  intros (c & p & _ & (s0 & ss & a0 & aa & _ & Ha & _ & ->) & _ & Hp).
  injection Ha as <- _.
  revert Hp. by apply not_elem_of_dom.
Defined.

(** ** Rule 5 *)

Lemma rules234_nlp_ignored doc self token :
  nlp (rules234 doc self token) = nlp self
  ∧ ignored_verbs (rules234 doc self token) = ignored_verbs self.
Proof.
  unfold rules234, rule2, rule3, rule4.
  repeat (case_decide || case_match); done.
Qed.

(** C3: at a token with dependency label "agent" under a VERB, with a first
    pobj child (the actor) and a first nsubjpass child of the verb (the
    patient), the token's step ends, whatever Rules 1 to 4 did before, by
    registering both capitalized lemmas where absent (existing entries are
    kept), adding the verb's lemma to the actor's methods and appending the
    Association tuple. *)
Theorem rule5_passive_voice (synsets : string → option (list Synset))
    (doc : Doc) (self : ThesisUMLSystem)
    (token agent0 psubj0 : Token) (agents psubjs : list Token) :
  dep_ token = "agent" →
  pos_ (tok_head doc token) = "VERB" →
  children_with_dep doc token "pobj" = agent0 :: agents →
  children_with_dep doc (tok_head doc token) "nsubjpass" = psubj0 :: psubjs →
  let s1 := rules234 doc (rule1 synsets self token) token in
  let s' := process_token synsets doc self token in
  let act := capitalize (lemma_ agent0) in
  let rec := capitalize (lemma_ psubj0) in
  let v := lemma_ (tok_head doc token) in
  relationships s' = relationships s1 ++ [(act, "Association", rec, v)]
  ∧ dom (classes s') = {[ act; rec ]} ∪ dom (classes s1)
  ∧ (∀ n e, classes s1 !! n = Some e →
       classes s' !! n
       = Some (if decide (n = act)
               then mkEntry (attributes e) ({[ v ]} ∪ methods e) else e))
  ∧ (∀ n, n ∉ dom (classes s1) → n = act ∨ n = rec →
       classes s' !! n
       = Some (if decide (n = act) then mkEntry ∅ {[ v ]} else new_entry))
  ∧ (∃ e, classes s' !! act = Some e ∧ v ∈ methods e).
Proof.
  intros Hdep Hpos Hag Hps s1 s' act rec v.
  assert (s' = append_rel
                 (set_classes s1
                    (add_method act v (register rec (register act (classes s1)))))
                 (act, "Association", rec, v)) as ->.
  { subst s'. unfold process_token. fold s1. unfold rule5.
    rewrite decide_True by done. by rewrite Hag, Hps. }
  cbn [append_rel set_relationships set_classes relationships classes].
  assert (∀ n e, classes s1 !! n = Some e →
            add_method act v (register rec (register act (classes s1))) !! n
            = Some (if decide (n = act)
                    then mkEntry (attributes e) ({[ v ]} ∪ methods e) else e))
    as Hold.
  { intros n e Hn. unfold add_method.
    pose proof (register_lookup_old rec n e _
                  (register_lookup_old act n e _ Hn)) as Hreg.
    case_decide as Hna.
    - subst n. by rewrite lookup_alter_eq, Hreg.
    - by rewrite lookup_alter_ne. }
  assert (∀ n, n ∉ dom (classes s1) → n = act ∨ n = rec →
            add_method act v (register rec (register act (classes s1))) !! n
            = Some (if decide (n = act) then mkEntry ∅ {[ v ]} else new_entry))
    as Hnew.
  { intros n Hn Hor. unfold add_method.
    assert (register rec (register act (classes s1)) !! n = Some new_entry)
      as Hreg.
    { destruct (decide (n = act)) as [->|Hne].
      - apply register_lookup_old.
        by apply register_lookup_new; [|rewrite dom_register; set_solver].
      - destruct Hor as [-> | ->]; [done|].
        apply register_lookup_new; rewrite ?dom_register; set_solver. }
    case_decide as Hna.
    - subst n. rewrite lookup_alter_eq, Hreg. cbn. do 2 f_equal. set_solver.
    - by rewrite lookup_alter_ne. }
  split; [done|]. split; [|split; [done|split; [done|]]].
  - rewrite dom_add_method, !dom_register. set_solver.
  - destruct (classes s1 !! act) as [e|] eqn:He.
    + eexists. split; [by apply Hold|]. rewrite decide_True by done.
      cbn. set_solver.
    + eexists. split; [apply Hnew; [by apply not_elem_of_dom|by left]|].
      rewrite decide_True by done. cbn. set_solver.
Qed.

Lemma rule5_passive_voice_witness :
  let s' := process_token Samples.no_senses Samples.acct_doc (init None)
              Samples.acct_by in
  relationships s' = [("Administrator", "Association", "Account", "manage")]
  ∧ dom (classes s') = {[ "Administrator"; "Account" ]} ∪ ∅.
Proof.
  pose proof (rule5_passive_voice Samples.no_senses Samples.acct_doc (init None)
                Samples.acct_by Samples.acct_admin Samples.acct_account [] []
                eq_refl eq_refl eq_refl eq_refl) as H.
  cbv zeta in H. destruct H as (Hr & Hd & _). split.
  - exact Hr.
  - exact Hd.
Defined.

(** ** Rule 4 *)

(** C4, as the specification states it, fails.  Only the first nsubj child
    and the first dobj child are consulted.  In the first parse the verb
    "manage" governs the subjects "user" and "admin": Admin is a registered
    class, User is not, and Admin gains no method.  In the second parse the
    verb "store" governs the objects "data" and "accounts": Account is a
    registered class different from Admin, Data is not registered, and no
    Association is appended. *)
Lemma rule4_later_children_ignored :
  (let before := extract Samples.no_senses Samples.team_doc (init None)
                   (take 4 Samples.team_doc) in
   let after := process_token Samples.no_senses Samples.team_doc before
                  Samples.team_manage in
   pos_ Samples.team_manage = "VERB"
   ∧ (lemma_ Samples.team_manage ∉ ignored_verbs before)
   ∧ Samples.team_admin
       ∈ children_with_dep Samples.team_doc Samples.team_manage "nsubj"
   ∧ classes before !! capitalize (lemma_ Samples.team_admin) = Some new_entry
   ∧ classes after !! capitalize (lemma_ Samples.team_admin) = Some new_entry
   ∧ lemma_ Samples.team_manage ∉ methods new_entry)
  ∧ (let before := extract Samples.no_senses Samples.store_doc (init None)
                     (take 5 Samples.store_doc) in
     let after := process_token Samples.no_senses Samples.store_doc before
                    Samples.store_stores in
     pos_ Samples.store_stores = "VERB"
     ∧ (lemma_ Samples.store_stores ∉ ignored_verbs before)
     ∧ children_with_dep Samples.store_doc Samples.store_stores "nsubj"
       = [Samples.store_admin]
     ∧ is_Some (classes before !! capitalize (lemma_ Samples.store_admin))
     ∧ Samples.store_accounts
         ∈ children_with_dep Samples.store_doc Samples.store_stores "dobj"
     ∧ is_Some (classes before !! capitalize (lemma_ Samples.store_accounts))
     ∧ capitalize (lemma_ Samples.store_accounts)
       ≠ capitalize (lemma_ Samples.store_admin)
     ∧ relationships before = []
     ∧ relationships after = []).
Proof.
  split.
  - cbv zeta. split; [reflexivity|]. split; [|split].
    + cbn. set_solver.
    + right. left.
    + split; [reflexivity|]. split; [reflexivity|]. cbn. set_solver.
  - cbv zeta. split; [reflexivity|]. split; [|split; [reflexivity|]].
    + cbn. set_solver.
    + split; [by eexists|]. split; [right; left|].
      split; [by eexists|]. split; [discriminate|]. split; reflexivity.
Qed.

(** C4 (amended): at a VERB token whose lemma is outside the ignored set,
    with a first nsubj child: nothing happens unless that first child's
    capitalized lemma is a registered class; if it is, the verb's lemma is
    added to that class's methods, and the Association tuple is appended
    exactly when there is a first dobj child whose capitalized lemma is a
    registered class other than the subject class.  Later nsubj and dobj
    children are not consulted. *)
Theorem rule4_first_subject (doc : Doc) (self : ThesisUMLSystem)
    (token subj0 : Token) (subjs : list Token) :
  pos_ token = "VERB" →
  ignored_verbs self
  = {[ "be"; "have"; "include"; "consist"; "contain"; "involve" ]} →
  lemma_ token ∉ ignored_verbs self →
  children_with_dep doc token "nsubj" = subj0 :: subjs →
  let s := capitalize (lemma_ subj0) in
  let self' := rules234 doc self token in
  (s ∉ dom (classes self) → self' = self)
  ∧ (s ∈ dom (classes self) →
     (∃ e, classes self !! s = Some e
           ∧ classes self'
             = <[s := mkEntry (attributes e) ({[ lemma_ token ]} ∪ methods e)]>
                 (classes self))
     ∧ (∀ dobj0 dobjs,
          children_with_dep doc token "dobj" = dobj0 :: dobjs →
          let o := capitalize (lemma_ dobj0) in
          (o ∈ dom (classes self) ∧ o ≠ s →
           relationships self'
           = relationships self ++ [(s, "Association", o, lemma_ token)])
          ∧ (¬ (o ∈ dom (classes self) ∧ o ≠ s) →
             relationships self' = relationships self))
     ∧ (children_with_dep doc token "dobj" = [] →
        relationships self' = relationships self)).
Proof.
  intros Hpos Hign Hlem Hsub s self'.
  assert (lemma_ token ≠ "be") as Hbe.
  { intros Heq. apply Hlem. rewrite Hign, Heq. set_solver. }
  assert (lemma_ token ∉ ["have"; "contain"; "include"; "consist"]) as Hhave.
  { intros Hin. apply Hlem. rewrite Hign. set_solver. }
  assert (self' = rule4 doc self token) as ->.
  { subst self'. unfold rules234.
    rewrite (decide_False _ _ Hbe), (decide_False _ _ Hhave).
    by rewrite decide_True. }
  unfold rule4. rewrite Hsub. fold s. split.
  - intros Hs. by rewrite decide_False.
  - intros Hs. rewrite decide_True by done.
    split; [|split].
    + apply elem_of_dom in Hs as [e He]. exists e. split; [done|].
      assert (classes (set_classes self (add_method s (lemma_ token) (classes self)))
              = <[s := mkEntry (attributes e) ({[ lemma_ token ]} ∪ methods e)]>
                  (classes self)) as Hcl.
      { cbn. unfold add_method. apply map_eq. intros n.
        rewrite lookup_alter, lookup_insert.
        case_decide; subst; by rewrite ?He. }
      destruct (children_with_dep doc token "dobj") as [|d0 ?]; [done|].
      by case_decide.
    + intros dobj0 dobjs Hd. rewrite Hd. cbn [set_classes classes].
      rewrite dom_add_method. split; intros Ho.
      * rewrite decide_True; [done|]. destruct Ho. by split.
      * rewrite decide_False; [done|]. intros [? ?]. apply Ho. by split.
    + by intros ->.
Qed.

Lemma rule4_first_subject_witness :
  relationships
    (rules234 Samples.store_doc
       (mkSystem None (<["Data" := new_entry]> {[ "Admin" := new_entry ]}) []
          Samples.default_ignored)
       Samples.store_stores)
  = [("Admin", "Association", "Data", "store")].
Proof.
  pose proof (rule4_first_subject Samples.store_doc
                (mkSystem None (<["Data" := new_entry]> {[ "Admin" := new_entry ]})
                   [] Samples.default_ignored)
                Samples.store_stores Samples.store_admin []
                eq_refl eq_refl) as H.
  cbv zeta in H. destruct H as [_ H].
  - cbn. unfold Samples.default_ignored. set_solver.
  - reflexivity.
  - destruct H as (_ & H & _).
    + apply elem_of_dom. by eexists.
    + apply (proj1 (H Samples.store_data [Samples.store_accounts] eq_refl)).
      split; [apply elem_of_dom; by eexists | discriminate].
Defined.

(** ** The extraction pass as a whole *)

(** C7: in a call of [process] with a parser model, after every token of
    the pass, and so when the pass ends, both endpoints of every collected
    relationship are keys of the registry. *)
Theorem process_endpoints_registered (synsets : string → option (list Synset))
    (self : ThesisUMLSystem) (parse : string → Doc) (txt : string) :
  nlp self = Some parse →
  endpoints_registered (process synsets self txt).2
  ∧ ∀ done_ rest, parse txt = done_ ++ rest →
      endpoints_registered
        (extract synsets (parse txt)
           (set_relationships (set_classes self ∅) []) done_).
Proof.
  intros Hnlp.
  assert (endpoints_registered (set_relationships (set_classes self ∅) []))
    as Hinit.
  { intros r Hr. cbn in Hr. by apply elem_of_nil in Hr. }
  split.
  - unfold process. rewrite Hnlp. cbn [snd]. by apply extract_endpoints.
  - intros done_ rest _. by apply extract_endpoints.
Qed.

Lemma process_endpoints_registered_witness :
  endpoints_registered
    (process Samples.no_senses
       (mkSystem (Some Samples.acct_parser) ∅
          [("Ghost", "Association", "Phantom", "haunt")] Samples.default_ignored)
       "The Account is managed by the Administrator.").2.
Proof.
  exact (proj1 (process_endpoints_registered Samples.no_senses
                  (mkSystem (Some Samples.acct_parser) ∅
                     [("Ghost", "Association", "Phantom", "haunt")]
                     Samples.default_ignored)
                  Samples.acct_parser
                  "The Account is managed by the Administrator." eq_refl)).
Defined.

(** C9: with a parser model, the diagram returned by [process] and the
    engine it leaves behind do not depend on the registry and the
    relationships held before the call, which are replaced by empty ones on
    entry; and a key of the registry, once present during the pass, is
    present at every later point of it. *)
Theorem process_resets_state (synsets : string → option (list Synset))
    (self1 self2 : ThesisUMLSystem) (parse : string → Doc) (txt : string) :
  nlp self1 = Some parse →
  nlp self2 = Some parse →
  ignored_verbs self1 = ignored_verbs self2 →
  process synsets self1 txt = process synsets self2 txt
  ∧ (process synsets self1 txt).2
    = extract synsets (parse txt)
        (mkSystem (Some parse) ∅ [] (ignored_verbs self1)) (parse txt)
  ∧ ∀ done_ token rest, parse txt = done_ ++ token :: rest →
      let start := mkSystem (Some parse) ∅ [] (ignored_verbs self1) in
      let s0 := extract synsets (parse txt) start done_ in
      let s1 := rule1 synsets s0 token in
      let s2 := rules234 (parse txt) s1 token in
      let s3 := rule5 (parse txt) s2 token in
      dom (classes s0) ⊆ dom (classes s1)
      ∧ dom (classes s1) ⊆ dom (classes s2)
      ∧ dom (classes s2) ⊆ dom (classes s3)
      ∧ dom (classes s3) ⊆ dom (classes (process synsets self1 txt).2).
Proof.
  intros Hn1 Hn2 Hign.
  assert (∀ self, nlp self = Some parse →
            set_relationships (set_classes self ∅) []
            = mkSystem (Some parse) ∅ [] (ignored_verbs self)) as Hreset.
  { intros self Hn. unfold set_relationships, set_classes. cbn. by rewrite Hn. }
  assert (∀ self, nlp self = Some parse →
            process synsets self txt
            = (Some (generate_graphviz
                       (extract synsets (parse txt)
                          (mkSystem (Some parse) ∅ [] (ignored_verbs self))
                          (parse txt))),
               extract synsets (parse txt)
                 (mkSystem (Some parse) ∅ [] (ignored_verbs self)) (parse txt)))
    as Hproc.
  { intros self Hn. unfold process. rewrite Hn. cbv zeta.
    by rewrite (Hreset self Hn). }
  split; [|split].
  - by rewrite (Hproc self1 Hn1), (Hproc self2 Hn2), Hign.
  - by rewrite (Hproc self1 Hn1).
  - intros done_ token rest Hsplit start s0 s1 s2 s3.
    split; [apply rule1_keys|]. split; [by subst s2; rewrite rules234_keys|].
    split; [apply rule5_keys|].
    rewrite (Hproc self1 Hn1). cbn [snd]. fold start.
    rewrite Hsplit at 2. rewrite extract_app. fold s0.
    cbn [extract foldl]. apply extract_keys.
Qed.

Lemma process_resets_state_witness :
  process Samples.no_senses
    (mkSystem (Some Samples.acct_parser) {[ "Ghost" := new_entry ]}
       [("Ghost", "Association", "Phantom", "haunt")] Samples.default_ignored)
    "The Account is managed by the Administrator."
  = process Samples.no_senses (init (Some Samples.acct_parser))
      "The Account is managed by the Administrator.".
Proof.
  exact (proj1 (process_resets_state Samples.no_senses
                  (mkSystem (Some Samples.acct_parser) {[ "Ghost" := new_entry ]}
                     [("Ghost", "Association", "Phantom", "haunt")]
                     Samples.default_ignored)
                  (init (Some Samples.acct_parser))
                  Samples.acct_parser
                  "The Account is managed by the Administrator."
                  eq_refl eq_refl eq_refl)).
Defined.

(** ** The emitter *)

Lemma edges_of_generate_graphviz (self : ThesisUMLSystem) :
  edges_of (generate_graphviz self) = edge_of <$> elements (unique_rels self).
Proof.
  unfold edges_of, generate_graphviz. cbn [body app List.filter is_edge].
  rewrite List.filter_app.
  assert (List.filter is_edge (node_of <$> map_to_list (classes self)) = [])
    as ->.
  { induction (map_to_list (classes self)) as [|kv l IH]; [done|]. by cbn. }
  cbn [app].
  induction (elements (unique_rels self)) as [|r l IH]; [done|].
  cbn [fmap list_fmap List.filter]. fold (fmap edge_of l). rewrite IH.
  destruct r as [[[s k] t] lbl]. unfold edge_of at 1.
  by repeat case_decide.
Qed.

(** C8: the relationships that reach the emitter are the collected ones
    without repetition, whatever the number of times a tuple was appended;
    the emitter makes one [edge] call for each of them, and the call is
    styled by the kind of the tuple. *)
Theorem generate_graphviz_edges (self : ThesisUMLSystem) :
  NoDup (elements (unique_rels self))
  ∧ (∀ r, r ∈ elements (unique_rels self) ↔ r ∈ relationships self)
  ∧ elements (unique_rels self) ≡ₚ remove_dups (relationships self)
  ∧ edges_of (generate_graphviz self) = edge_of <$> elements (unique_rels self)
  ∧ length (edges_of (generate_graphviz self))
    = length (remove_dups (relationships self))
  ∧ (∀ s t l,
       edge_of (s, "Generalization", t, l)
       = Edge s t [("arrowhead", "onormal"); ("label", EmptyString)]
       ∧ edge_of (s, "Composition", t, l)
         = Edge s t [("dir", "both"); ("arrowtail", "diamond");
                     ("arrowhead", "none"); ("label", l)]
       ∧ edge_of (s, "Association", t, l)
         = Edge s t [("arrowhead", "vee"); ("label", l)]).
Proof.
  assert (elements (unique_rels self) ≡ₚ remove_dups (relationships self))
    as Hperm.
  { apply NoDup_Permutation; [apply NoDup_elements|apply NoDup_remove_dups|].
    intros r. unfold unique_rels.
    by rewrite elem_of_elements, elem_of_list_to_set, elem_of_remove_dups. }
  split; [apply NoDup_elements|].
  split.
  { intros r. unfold unique_rels. by rewrite elem_of_elements, elem_of_list_to_set. }
  split; [done|].
  split; [apply edges_of_generate_graphviz|].
  split.
  { by rewrite edges_of_generate_graphviz, length_fmap, Hperm. }
  intros s t l. by split; [|split].
Qed.


(** * Further properties of the code *)

(** ** The multiplicity detector, continued *)

Lemma detect_multiplicity_loop_range (cs : list Token) :
  detect_multiplicity_loop cs ∈ ["1"; "0..*"; "1..*"].
Proof.
  induction cs as [|c cs IH]; cbn [detect_multiplicity_loop].
  - set_solver.
  - repeat case_decide; [set_solver..|done].
Qed.

(** X1: [detect_multiplicity] answers one of "1", "0..*" and "1..*", and
    nothing else. *)
Theorem detect_multiplicity_range (doc : Doc) (token : Token) :
  detect_multiplicity doc token ∈ ["1"; "0..*"; "1..*"].
Proof. apply detect_multiplicity_loop_range. Qed.

Lemma detect_multiplicity_loop_one (cs : list Token) :
  detect_multiplicity_loop cs = "1"
  ↔ ∀ c, c ∈ cs → (lower (text c) ∉ quantifier_words) ∧ tag_ c ≠ "NNS".
Proof.
  induction cs as [|c cs IH]; cbn [detect_multiplicity_loop].
  - split; [|done]. intros _ c Hc. by apply elem_of_nil in Hc.
  - case_decide as Hq; [|case_decide as Hn].
    + split; [discriminate|]. intros Hall.
      destruct (Hall c) as [Hq' _]; [left|]. done.
    + split; [discriminate|]. intros Hall.
      destruct (Hall c) as [_ Hn']; [left|]. done.
    + rewrite IH. split.
      * intros Hall x Hx. apply elem_of_cons in Hx as [-> | Hx]; [done|].
        by apply Hall.
      * intros Hall x Hx. apply Hall. by right.
Qed.

(** X2: [detect_multiplicity] answers "1" exactly when no child of the
    token is a quantifier word and no child carries the tag NNS; a token
    without children gets "1". *)
Theorem detect_multiplicity_one_iff (doc : Doc) (token : Token) :
  (detect_multiplicity doc token = "1"
   ↔ ∀ c, c ∈ tok_children doc token →
          (lower (text c) ∉ quantifier_words) ∧ tag_ c ≠ "NNS")
  ∧ (tok_children doc token = [] → detect_multiplicity doc token = "1").
Proof.
  split; [apply detect_multiplicity_loop_one|].
  unfold detect_multiplicity. by intros ->.
Qed.

Lemma detect_multiplicity_one_iff_witness :
  detect_multiplicity Samples.car_doc Samples.car_engine = "1".
Proof.
  apply (proj1 (detect_multiplicity_one_iff Samples.car_doc Samples.car_engine)).
  intros c Hc.
  apply elem_of_cons in Hc as [-> | Hc]; [|by apply elem_of_nil in Hc].
  split; [|discriminate]. cbn. intros Hq. by closed_not_elem Hq.
Defined.

(** ** Tokens reached from a token of the document *)

Lemma children_with_dep_elem (doc : Doc) (t c : Token) (d : string) :
  c ∈ children_with_dep doc t d → c ∈ doc ∧ dep_ c = d.
Proof.
  unfold children_with_dep, tok_children. intros Hc.
  apply list_elem_of_filter in Hc as [Hd Hc].
  apply list_elem_of_filter in Hc as [_ Hc]. done.
Qed.

Lemma children_with_dep_first (doc : Doc) (t c : Token) (d : string)
    (rest : list Token) :
  children_with_dep doc t d = c :: rest → c ∈ doc ∧ dep_ c = d.
Proof.
  intros Heq. apply (children_with_dep_elem doc t). rewrite Heq. left.
Qed.

Lemma tok_head_elem (doc : Doc) (t : Token) :
  t ∈ doc → tok_head doc t ∈ doc.
Proof.
  intros Ht. unfold tok_head.
  destruct (filter (λ h, i h = head_i t) doc) as [|h l] eqn:Hf; [done|].
  cbn. assert (h ∈ filter (λ h, i h = head_i t) doc) as Hh.
  { rewrite Hf. left. }
  by apply list_elem_of_filter in Hh as [_ Hh].
Qed.

(** ** Each rule is a sequence of atomic updates *)

Section Steps.

Variable doc : Doc.

Lemma rule1_steps synsets self token :
  token ∈ doc → rtc (step doc) self (rule1 synsets self token).
Proof.
  intros Ht. unfold rule1. case_decide as Hq; [|done]. destruct Hq as [_ Hdep].
  case_decide; [|done]. destruct (check_ontology _ _); [|done].
  by apply rtc_once, step_register.
Qed.

Lemma rule2_steps self token :
  rtc (step doc) self (rule2 doc self token).
Proof.
  unfold rule2.
  destruct (children_with_dep doc token "nsubj") as [|s0 ?]; [done|].
  destruct (children_with_dep doc token "attr") as [|a0 ?]; [done|].
  case_decide as Hreg; [|done]. destruct Hreg as [Hc Hp].
  apply rtc_once, step_append; [done..|]. by left.
Qed.

Lemma rule3_steps self token :
  rtc (step doc) self (rule3 doc self token).
Proof.
  unfold rule3.
  destruct (children_with_dep doc token "nsubj") as [|o0 ?]; [done|].
  destruct (children_with_dep doc token "dobj") as [|b0 ?] eqn:Hobj; [done|].
  apply children_with_dep_first in Hobj as [Hb Hdep].
  case_decide as Ho; [|done]. case_decide as Hc.
  - apply rtc_once, step_append; [done..|]. right. left. split; [done|].
    cbn. pose proof (detect_multiplicity_loop_range (tok_children doc b0)) as Hr.
    fold (detect_multiplicity doc b0) in Hr.
    case_decide as Hm; [|set_solver].
    apply elem_of_cons in Hr as [Hr|Hr]; [done|]. by right.
  - by apply rtc_once, step_attribute.
Qed.

Lemma rule4_steps self token :
  token ∈ doc → pos_ token = "VERB" →
  rtc (step doc) self (rule4 doc self token).
Proof.
  intros Ht Hpos. unfold rule4.
  destruct (children_with_dep doc token "nsubj") as [|s0 ?]; [done|].
  case_decide as Hs; [|done].
  eapply rtc_l;
    [by apply (step_method doc self (capitalize (lemma_ s0)) token)|].
  destruct (children_with_dep doc token "dobj") as [|d0 ?]; [done|].
  case_decide as Ho; [|done]. destruct Ho as [Ho _].
  apply rtc_once, step_append.
  - cbn. by rewrite dom_add_method.
  - done.
  - right. right. split; [done|]. by exists token.
Qed.

Lemma rules234_steps self token :
  token ∈ doc → rtc (step doc) self (rules234 doc self token).
Proof.
  intros Ht. unfold rules234. case_decide; [apply rule2_steps|].
  case_decide; [apply rule3_steps|].
  case_decide as Hv; [|done]. destruct Hv as [Hpos _]. by apply rule4_steps.
Qed.

Lemma rule5_steps self token :
  token ∈ doc → rtc (step doc) self (rule5 doc self token).
Proof.
  intros Ht. unfold rule5. case_decide as Hg; [|done]. destruct Hg as [_ Hpos].
  destruct (children_with_dep doc token "pobj") as [|a0 ?] eqn:Ha; [done|].
  destruct (children_with_dep doc (tok_head doc token) "nsubjpass")
    as [|p0 ?] eqn:Hp; [done|].
  apply children_with_dep_first in Ha as [Ha Hadep].
  apply children_with_dep_first in Hp as [Hp Hpdep].
  pose proof (tok_head_elem doc token Ht) as Hv.
  eapply rtc_l.
  { apply (step_register doc self a0); [done|]. rewrite Hadep. set_solver. }
  eapply rtc_l.
  { apply (step_register doc _ p0); [done|]. rewrite Hpdep. set_solver. }
  eapply rtc_l.
  { apply (step_method doc _ (capitalize (lemma_ a0)) (tok_head doc token));
      [|done..].
    cbn. rewrite !dom_register. set_solver. }
  apply rtc_once, step_append.
  - cbn. rewrite dom_add_method, !dom_register. set_solver.
  - cbn. rewrite dom_add_method, !dom_register. set_solver.
  - right. right. split; [done|]. by exists (tok_head doc token).
Qed.

Lemma process_token_steps synsets self token :
  token ∈ doc → rtc (step doc) self (process_token synsets doc self token).
Proof.
  intros Ht. unfold process_token.
  etrans; [by apply (rule1_steps synsets)|].
  etrans; [by apply rules234_steps|]. by apply rule5_steps.
Qed.

Lemma extract_steps synsets ts self :
  (∀ t, t ∈ ts → t ∈ doc) →
  rtc (step doc) self (extract synsets doc self ts).
Proof.
  revert self. induction ts as [|t ts IH]; intros self Hts; [done|].
  cbn. etrans.
  - apply (process_token_steps synsets self t), Hts. left.
  - apply IH. intros x Hx. apply Hts. by right.
Qed.

End Steps.

(** ** What the atomic updates keep *)

Lemma entry_le_refl (e : ClassEntry) : entry_le e e.
Proof. by split. Qed.

Lemma registry_le_refl (cl : gmap string ClassEntry) : registry_le cl cl.
Proof. intros n e Hn. exists e. split; [done|apply entry_le_refl]. Qed.

Lemma registry_le_trans (cl1 cl2 cl3 : gmap string ClassEntry) :
  registry_le cl1 cl2 → registry_le cl2 cl3 → registry_le cl1 cl3.
Proof.
  intros H12 H23 n e Hn.
  destruct (H12 n e Hn) as (e2 & Hn2 & [Ha2 Hm2]).
  destruct (H23 n e2 Hn2) as (e3 & Hn3 & [Ha3 Hm3]).
  exists e3. split; [done|]. split; set_solver.
Qed.

Lemma registry_le_register (c : string) (cl : gmap string ClassEntry) :
  registry_le cl (register c cl).
Proof.
  intros n e Hn. exists e. split; [by apply register_lookup_old|].
  apply entry_le_refl.
Qed.

Lemma registry_le_add_attribute (c a : string) (cl : gmap string ClassEntry) :
  registry_le cl (add_attribute c a cl).
Proof.
  intros n e Hn. unfold add_attribute. destruct (decide (c = n)) as [->|Hne].
  - rewrite lookup_alter_eq, Hn. eexists. split; [done|]. split; cbn; set_solver.
  - rewrite lookup_alter_ne by done. exists e. split; [done|apply entry_le_refl].
Qed.

Lemma registry_le_add_method (c m : string) (cl : gmap string ClassEntry) :
  registry_le cl (add_method c m cl).
Proof.
  intros n e Hn. unfold add_method. destruct (decide (c = n)) as [->|Hne].
  - rewrite lookup_alter_eq, Hn. eexists. split; [done|]. split; cbn; set_solver.
  - rewrite lookup_alter_ne by done. exists e. split; [done|apply entry_le_refl].
Qed.

Lemma lookup_register_inv (c n : string) (e : ClassEntry)
    (cl : gmap string ClassEntry) :
  register c cl !! n = Some e → cl !! n = Some e ∨ (n = c ∧ e = new_entry).
Proof.
  unfold register. case_decide; [by left|].
  destruct (decide (c = n)) as [->|Hne].
  - rewrite lookup_insert_eq. intros [= <-]. by right.
  - rewrite lookup_insert_ne by done. by left.
Qed.

Lemma lookup_add_attribute_inv (c a n : string) (e : ClassEntry)
    (cl : gmap string ClassEntry) :
  add_attribute c a cl !! n = Some e →
  ∃ e0, cl !! n = Some e0 ∧ methods e = methods e0
        ∧ attributes e ⊆ {[ a ]} ∪ attributes e0.
Proof.
  unfold add_attribute. destruct (decide (c = n)) as [->|Hne].
  - rewrite lookup_alter_eq. destruct (cl !! n) as [e0|]; [|done].
    intros [= <-]. exists e0. by split.
  - rewrite lookup_alter_ne by done. intros Hn. exists e.
    split; [done|]. split; [done|set_solver].
Qed.

Lemma lookup_add_method_inv (c m n : string) (e : ClassEntry)
    (cl : gmap string ClassEntry) :
  add_method c m cl !! n = Some e →
  ∃ e0, cl !! n = Some e0 ∧ attributes e = attributes e0
        ∧ methods e ⊆ {[ m ]} ∪ methods e0.
Proof.
  unfold add_method. destruct (decide (c = n)) as [->|Hne].
  - rewrite lookup_alter_eq. destruct (cl !! n) as [e0|]; [|done].
    intros [= <-]. exists e0. by split.
  - rewrite lookup_alter_ne by done. intros Hn. exists e.
    split; [done|]. split; [done|set_solver].
Qed.

Section StepInvariants.

Variable doc : Doc.

Lemma step_frame s s' :
  step doc s s' →
  nlp s' = nlp s ∧ ignored_verbs s' = ignored_verbs s
  ∧ relationships s `prefix_of` relationships s'
  ∧ registry_le (classes s) (classes s').
Proof.
  intros [t Ht Hdep|c t Hc Ht Hdep|c t Hc Ht Hpos|r Hs Ht Hr]; cbn.
  - repeat split; [done|apply registry_le_register].
  - repeat split; [done|apply registry_le_add_attribute].
  - repeat split; [done|apply registry_le_add_method].
  - repeat split; [by apply prefix_app_r|apply registry_le_refl].
Qed.

Lemma steps_frame s s' :
  rtc (step doc) s s' →
  nlp s' = nlp s ∧ ignored_verbs s' = ignored_verbs s
  ∧ relationships s `prefix_of` relationships s'
  ∧ registry_le (classes s) (classes s').
Proof.
  induction 1 as [s|s1 s2 s3 H12 _ IH].
  - repeat split; [done|apply registry_le_refl].
  - destruct (step_frame _ _ H12) as (Hn & Hi & Hp & Hle).
    destruct IH as (Hn' & Hi' & Hp' & Hle').
    split; [congruence|]. split; [congruence|].
    split; [by etrans|]. by eapply registry_le_trans.
Qed.

Lemma step_names s s' :
  step doc s s' → names_from_doc doc s → names_from_doc doc s'.
Proof.
  intros [t Ht Hdep|c t Hc Ht Hdep|c t Hc Ht Hpos|r Hs Ht Hr] Hinv n; cbn.
  - rewrite dom_register. intros Hn.
    apply elem_of_union in Hn as [Hn|Hn]; [|by apply Hinv].
    apply elem_of_singleton in Hn as ->. by exists t.
  - rewrite dom_add_attribute. apply Hinv.
  - rewrite dom_add_method. apply Hinv.
  - apply Hinv.
Qed.

Lemma step_members s s' :
  step doc s s' → members_from_doc doc s → members_from_doc doc s'.
Proof.
  intros [t Ht Hdep|c t Hc Ht Hdep|c t Hc Ht Hpos|r Hs Ht Hr] Hinv n e; cbn.
  - intros Hn. apply lookup_register_inv in Hn as [Hn|[_ ->]]; [by eapply Hinv|].
    split; intros x Hx; cbn in Hx; set_solver.
  - intros Hn. apply lookup_add_attribute_inv in Hn as (e0 & Hn & Hm & Ha).
    destruct (Hinv n e0 Hn) as [Hattr Hmeth]. split.
    + intros a Hin. apply Ha in Hin.
      apply elem_of_union in Hin as [Hin|Hin]; [|by apply Hattr].
      apply elem_of_singleton in Hin as ->. by exists t.
    + intros m. rewrite Hm. apply Hmeth.
  - intros Hn. apply lookup_add_method_inv in Hn as (e0 & Hn & Ha & Hm).
    destruct (Hinv n e0 Hn) as [Hattr Hmeth]. split.
    + intros a. rewrite Ha. apply Hattr.
    + intros m Hin. apply Hm in Hin.
      apply elem_of_union in Hin as [Hin|Hin]; [|by apply Hmeth].
      apply elem_of_singleton in Hin as ->. by exists t.
  - apply Hinv.
Qed.

Lemma step_rels_well_formed s s' :
  step doc s s' →
  (∀ r, r ∈ relationships s → rel_well_formed doc r) →
  ∀ r, r ∈ relationships s' → rel_well_formed doc r.
Proof.
  intros [t Ht Hdep|c t Hc Ht Hdep|c t Hc Ht Hpos|r0 Hs Ht Hr] Hinv r; cbn;
    try apply Hinv.
  intros Hin. apply elem_of_app in Hin as [Hin|Hin]; [by apply Hinv|].
  by apply list_elem_of_singleton in Hin as ->.
Qed.

Lemma steps_invariant (P : ThesisUMLSystem → Prop) s s' :
  (∀ x y, step doc x y → P x → P y) →
  rtc (step doc) s s' → P s → P s'.
Proof.
  intros Hstep Hrtc. induction Hrtc as [s|s1 s2 s3 H12 _ IH]; [done|].
  intros H1. by apply IH, (Hstep s1).
Qed.

End StepInvariants.

(** ** The pass of [process], seen from outside *)

Lemma process_with_model (synsets : string → option (list Synset))
    (self : ThesisUMLSystem) (parse : string → Doc) (txt : string) :
  nlp self = Some parse →
  process synsets self txt
  = (Some (generate_graphviz
             (extract synsets (parse txt)
                (set_relationships (set_classes self ∅) []) (parse txt))),
     extract synsets (parse txt)
       (set_relationships (set_classes self ∅) []) (parse txt)).
Proof. intros Hn. unfold process. by rewrite Hn. Qed.

Lemma process_steps (synsets : string → option (list Synset))
    (self : ThesisUMLSystem) (parse : string → Doc) (txt : string) :
  nlp self = Some parse →
  rtc (step (parse txt)) (set_relationships (set_classes self ∅) [])
    (process synsets self txt).2.
Proof.
  intros Hn. rewrite (process_with_model synsets self parse txt Hn).
  by apply extract_steps.
Qed.

(** X3: after [process], every class name is the capitalized lemma of a
    token of the parse whose dependency label is nsubj, dobj, pobj or
    nsubjpass; no other string becomes a class name. *)
Theorem process_class_names (synsets : string → option (list Synset))
    (self : ThesisUMLSystem) (parse : string → Doc) (txt n : string) :
  nlp self = Some parse →
  n ∈ dom (classes (process synsets self txt).2) →
  ∃ t, t ∈ parse txt
       ∧ dep_ t ∈ ["nsubj"; "dobj"; "pobj"; "nsubjpass"]
       ∧ n = capitalize (lemma_ t).
Proof.
  intros Hn. revert n.
  apply (steps_invariant (parse txt) (names_from_doc (parse txt)) _ _
           (step_names (parse txt)) (process_steps synsets self parse txt Hn)).
  intros n Hin. cbn in Hin. set_solver.
Qed.

Lemma process_class_names_witness :
  ∃ t, t ∈ Samples.acct_doc
       ∧ dep_ t ∈ ["nsubj"; "dobj"; "pobj"; "nsubjpass"]
       ∧ "Administrator" = capitalize (lemma_ t).
Proof.
  apply (process_class_names Samples.no_senses (init (Some Samples.acct_parser))
           Samples.acct_parser "The Account is managed by the Administrator."
           "Administrator" eq_refl).
  apply elem_of_dom. by eexists.
Defined.

(** X4: after [process], every attribute of every class is the surface
    text of a dobj token of the parse, and every method is the lemma of a
    VERB token of the parse. *)
Theorem process_members_from_tokens (synsets : string → option (list Synset))
    (self : ThesisUMLSystem) (parse : string → Doc) (txt n : string)
    (e : ClassEntry) :
  nlp self = Some parse →
  classes (process synsets self txt).2 !! n = Some e →
  (∀ a, a ∈ attributes e →
        ∃ t, t ∈ parse txt ∧ dep_ t = "dobj" ∧ a = text t)
  ∧ (∀ m, m ∈ methods e →
          ∃ t, t ∈ parse txt ∧ pos_ t = "VERB" ∧ m = lemma_ t).
Proof.
  intros Hn. revert n e.
  apply (steps_invariant (parse txt) (members_from_doc (parse txt)) _ _
           (step_members (parse txt)) (process_steps synsets self parse txt Hn)).
  intros n e Hin. cbn in Hin. by rewrite lookup_empty in Hin.
Qed.

Lemma process_members_from_tokens_witness :
  ∃ t, t ∈ Samples.acct_doc ∧ pos_ t = "VERB" ∧ "manage" = lemma_ t.
Proof.
  refine (proj2 (process_members_from_tokens Samples.no_senses
                   (init (Some Samples.acct_parser)) Samples.acct_parser
                   "The Account is managed by the Administrator."
                   "Administrator" (mkEntry ∅ {[ "manage" ]}) eq_refl _)
            "manage" _).
  - vm_compute. reflexivity.
  - cbn. set_solver.
Defined.

(** X5: after [process], every relationship is a Generalization with an
    empty label, a Composition whose label is empty, "0..*" or "1..*"
    (never "1"), or an Association labelled with the lemma of a VERB token
    of the parse. *)
Theorem process_relationship_shapes (synsets : string → option (list Synset))
    (self : ThesisUMLSystem) (parse : string → Doc) (txt : string)
    (r : Relationship) :
  nlp self = Some parse →
  r ∈ relationships (process synsets self txt).2 →
  (rel_kind r = "Generalization" ∧ rel_label r = EmptyString)
  ∨ (rel_kind r = "Composition" ∧ rel_label r ∈ [EmptyString; "0..*"; "1..*"])
  ∨ (rel_kind r = "Association"
     ∧ ∃ t, t ∈ parse txt ∧ pos_ t = "VERB" ∧ rel_label r = lemma_ t).
Proof.
  intros Hn. revert r.
  apply (steps_invariant (parse txt)
           (λ s, ∀ r, r ∈ relationships s → rel_well_formed (parse txt) r) _ _
           (step_rels_well_formed (parse txt))
           (process_steps synsets self parse txt Hn)).
  intros r Hin. cbn in Hin. by apply elem_of_nil in Hin.
Qed.

Lemma process_relationship_shapes_witness :
  (rel_kind ("Administrator", "Association", "Account", "manage") = "Generalization"
   ∧ rel_label ("Administrator", "Association", "Account", "manage") = EmptyString)
  ∨ (rel_kind ("Administrator", "Association", "Account", "manage") = "Composition"
     ∧ rel_label ("Administrator", "Association", "Account", "manage")
       ∈ [EmptyString; "0..*"; "1..*"])
  ∨ (rel_kind ("Administrator", "Association", "Account", "manage") = "Association"
     ∧ ∃ t, t ∈ Samples.acct_doc ∧ pos_ t = "VERB"
            ∧ rel_label ("Administrator", "Association", "Account", "manage")
              = lemma_ t).
Proof.
  apply (process_relationship_shapes Samples.no_senses
           (init (Some Samples.acct_parser)) Samples.acct_parser
           "The Account is managed by the Administrator."
           ("Administrator", "Association", "Account", "manage") eq_refl).
  vm_compute. left.
Defined.

(** X6: during the pass nothing is taken back: at any point of the token
    loop, every class registered so far is still registered when [process]
    returns, with at least the attributes and methods it had, and the
    relationships collected so far are an initial segment of the final
    list. *)
Theorem process_only_grows (synsets : string → option (list Synset))
    (self : ThesisUMLSystem) (parse : string → Doc) (txt : string)
    (done_ rest : list Token) :
  nlp self = Some parse →
  parse txt = done_ ++ rest →
  let mid := extract synsets (parse txt)
               (set_relationships (set_classes self ∅) []) done_ in
  let final := (process synsets self txt).2 in
  relationships mid `prefix_of` relationships final
  ∧ ∀ n e, classes mid !! n = Some e →
      ∃ e', classes final !! n = Some e'
            ∧ attributes e ⊆ attributes e' ∧ methods e ⊆ methods e'.
Proof.
  intros Hn Hsplit mid final.
  assert (rtc (step (parse txt)) mid final) as Hsteps.
  { subst mid final. rewrite (process_with_model synsets self parse txt Hn).
    cbn [snd]. rewrite Hsplit at 4. rewrite extract_app.
    apply extract_steps. intros t Ht. rewrite Hsplit.
    apply elem_of_app. by right. }
  destruct (steps_frame _ _ _ Hsteps) as (_ & _ & Hp & Hle).
  split; [done|]. intros n e Hne. destruct (Hle n e Hne) as (e' & He' & Ha & Hm).
  by exists e'.
Qed.

Lemma process_only_grows_witness :
  let mid := extract Samples.no_senses Samples.acct_doc
               (set_relationships
                  (set_classes (init (Some Samples.acct_parser)) ∅) [])
               (take 2 Samples.acct_doc) in
  let final := (process Samples.no_senses (init (Some Samples.acct_parser))
                  "The Account is managed by the Administrator.").2 in
  relationships mid `prefix_of` relationships final
  ∧ ∀ n e, classes mid !! n = Some e →
      ∃ e', classes final !! n = Some e'
            ∧ attributes e ⊆ attributes e' ∧ methods e ⊆ methods e'.
Proof.
  exact (process_only_grows Samples.no_senses (init (Some Samples.acct_parser))
           Samples.acct_parser "The Account is managed by the Administrator."
           (take 2 Samples.acct_doc) (drop 2 Samples.acct_doc)
           eq_refl eq_refl).
Defined.

Lemma process_token_relationships_length synsets doc self token :
  (length (relationships (process_token synsets doc self token))
   ≤ length (relationships self) + 2)%nat.
Proof.
  unfold process_token.
  rewrite <- (rule1_relationships synsets self token).
  generalize (rule1 synsets self token). intros s1.
  assert (length (relationships (rules234 doc s1 token))
          ≤ length (relationships s1) + 1)%nat as H234.
  { unfold rules234, rule2, rule3, rule4.
    repeat (case_decide || case_match); cbn; rewrite ?length_app; cbn; lia. }
  assert (∀ s, (length (relationships (rule5 doc s token))
                ≤ length (relationships s) + 1)%nat) as H5.
  { intros s. unfold rule5.
    repeat (case_decide || case_match); cbn; rewrite ?length_app; cbn; lia. }
  specialize (H5 (rules234 doc s1 token)). lia.
Qed.

(** X7: a token contributes at most two relationships (one from the chain
    of Rules 2 to 4, one from Rule 5), so [process] collects at most twice
    as many relationships as the parse has tokens. *)
Theorem process_relationships_bound (synsets : string → option (list Synset))
    (self : ThesisUMLSystem) (parse : string → Doc) (txt : string) :
  nlp self = Some parse →
  (length (relationships (process synsets self txt).2)
   ≤ 2 * length (parse txt))%nat.
Proof.
  intros Hn. rewrite (process_with_model synsets self parse txt Hn). cbn [snd].
  assert (∀ ts s, (length (relationships (extract synsets (parse txt) s ts))
                   ≤ length (relationships s) + 2 * length ts)%nat) as Hgen.
  { induction ts as [|t ts IH]; intros s; [cbn; lia|].
    cbn [extract foldl length]. fold (extract synsets (parse txt)).
    specialize (IH (process_token synsets (parse txt) s t)).
    pose proof (process_token_relationships_length synsets (parse txt) s t).
    unfold extract in *. lia. }
  specialize (Hgen (parse txt) (set_relationships (set_classes self ∅) [])).
  cbn in Hgen. cbn. lia.
Qed.

Lemma process_relationships_bound_witness :
  (length (relationships
             (process Samples.no_senses (init (Some Samples.acct_parser))
                "The Account is managed by the Administrator.").2)
   ≤ 2 * length (Samples.acct_parser
                   "The Account is managed by the Administrator."))%nat.
Proof.
  exact (process_relationships_bound Samples.no_senses
           (init (Some Samples.acct_parser)) Samples.acct_parser
           "The Account is managed by the Administrator." eq_refl).
Defined.

(** X8: [process] leaves the parser model and the ignored-verb set of the
    engine as they were, so the engine it leaves behind answers every later
    call as the engine before the call would have: calls can be repeated
    and chained on one instance. *)
Theorem process_chains (synsets : string → option (list Synset))
    (self : ThesisUMLSystem) (parse : string → Doc) (txt : string) :
  nlp self = Some parse →
  let self' := (process synsets self txt).2 in
  nlp self' = nlp self
  ∧ ignored_verbs self' = ignored_verbs self
  ∧ ∀ txt', process synsets self' txt' = process synsets self txt'.
Proof.
  intros Hn self'.
  destruct (steps_frame _ _ _ (process_steps synsets self parse txt Hn))
    as (Hnlp & Hign & _ & _).
  cbn in Hnlp, Hign. fold self' in Hnlp, Hign.
  split; [done|]. split; [done|].
  intros txt'. unfold process. rewrite Hnlp, Hn.
  unfold set_relationships, set_classes. cbn. by rewrite Hnlp, Hign.
Qed.

Lemma process_chains_witness :
  let self' := (process Samples.no_senses (init (Some Samples.acct_parser))
                  "The Account is managed by the Administrator.").2 in
  nlp self' = nlp (init (Some Samples.acct_parser))
  ∧ ignored_verbs self' = ignored_verbs (init (Some Samples.acct_parser))
  ∧ ∀ txt', process Samples.no_senses self' txt'
            = process Samples.no_senses (init (Some Samples.acct_parser)) txt'.
Proof.
  exact (process_chains Samples.no_senses (init (Some Samples.acct_parser))
           Samples.acct_parser "The Account is managed by the Administrator."
           eq_refl).
Defined.

(** ** The emitted diagram *)

Lemma body_generate_graphviz_inv (self : ThesisUMLSystem) (s : Stmt) :
  s ∈ body (generate_graphviz self) →
  (∃ kv, s = GraphAttr kv) ∨ (∃ kv, s = NodeAttr kv)
  ∨ (∃ n e, classes self !! n = Some e ∧ s = node_of (n, e))
  ∨ (∃ r, r ∈ relationships self ∧ s = edge_of r).
Proof.
  unfold generate_graphviz. cbn [body].
  rewrite !elem_of_app, !elem_of_cons, elem_of_nil, !list_elem_of_fmap.
  intros [[->|[->|[]]]|[(kv & -> & Hkv)|(r & -> & Hr)]].
  - left. by eexists.
  - right. left. by eexists.
  - right. right. left. destruct kv as [n e].
    apply elem_of_map_to_list in Hkv. by exists n, e.
  - right. right. right. exists r. split; [|done].
    by apply elem_of_elements, elem_of_list_to_set in Hr.
Qed.

Lemma node_in_body (self : ThesisUMLSystem) (n : string) (e : ClassEntry) :
  classes self !! n = Some e → node_of (n, e) ∈ body (generate_graphviz self).
Proof.
  intros Hn. unfold generate_graphviz. cbn [body].
  rewrite !elem_of_app, list_elem_of_fmap. right. left.
  exists (n, e). split; [done|]. by apply elem_of_map_to_list.
Qed.

Lemma edge_endpoints (r : Relationship) :
  ∃ kv, edge_of r = Edge (rel_source r) (rel_target r) kv.
Proof.
  destruct r as [[[s k] t] l]. unfold edge_of. repeat case_decide; by eexists.
Qed.

(** X9: in the diagram that [process] returns, every edge joins two
    declared nodes: for each [edge] call there are [node] calls with the
    names of its tail and of its head. *)
Theorem process_no_dangling_edge (synsets : string → option (list Synset))
    (self : ThesisUMLSystem) (parse : string → Doc) (txt : string)
    (g : Digraph) (tail_name head_name : string) (kv : list (string * string)) :
  nlp self = Some parse →
  (process synsets self txt).1 = Some g →
  Edge tail_name head_name kv ∈ body g →
  (∃ l, Node tail_name l ∈ body g) ∧ (∃ l, Node head_name l ∈ body g).
Proof.
  intros Hn Hg Hedge.
  rewrite (process_with_model synsets self parse txt Hn) in Hg.
  cbn [fst] in Hg. injection Hg as <-.
  set (final := extract synsets (parse txt)
                  (set_relationships (set_classes self ∅) []) (parse txt))
    in *.
  assert (endpoints_registered final) as Hinv.
  { apply extract_endpoints. intros r Hr. cbn in Hr. by apply elem_of_nil in Hr. }
  apply body_generate_graphviz_inv in Hedge
    as [[? [=]]|[[? [=]]|[(n & e & _ & [=])|(r & Hr & Heq)]]].
  destruct (edge_endpoints r) as [kv' Hkv']. rewrite Hkv' in Heq.
  injection Heq as -> -> ->.
  destruct (Hinv r Hr) as [Hs Ht].
  apply elem_of_dom in Hs as [es Hes]. apply elem_of_dom in Ht as [et Het].
  split; eexists.
  - apply (node_in_body final _ _ Hes).
  - apply (node_in_body final _ _ Het).
Qed.

Lemma process_no_dangling_edge_witness :
  let g := generate_graphviz
             (process Samples.no_senses (init (Some Samples.acct_parser))
                "The Account is managed by the Administrator.").2 in
  (∃ l, Node "Administrator" l ∈ body g) ∧ (∃ l, Node "Account" l ∈ body g).
Proof.
  refine (process_no_dangling_edge Samples.no_senses
            (init (Some Samples.acct_parser)) Samples.acct_parser
            "The Account is managed by the Administrator." _
            "Administrator" "Account"
            [("arrowhead", "vee"); ("label", "manage")] eq_refl eq_refl _).
  vm_compute. do 4 right. left.
Defined.

(** X10: a parse without any token in a subject or object position (no
    nsubj, dobj, pobj or nsubjpass label, the empty parse included) is not
    an error: [process] returns the diagram with its two attribute
    statements only, and leaves an empty registry and no relationship. *)
Theorem process_without_arguments (synsets : string → option (list Synset))
    (self : ThesisUMLSystem) (parse : string → Doc) (txt : string) :
  nlp self = Some parse →
  (∀ t, t ∈ parse txt → dep_ t ∉ ["nsubj"; "dobj"; "pobj"; "nsubjpass"]) →
  classes (process synsets self txt).2 = ∅
  ∧ relationships (process synsets self txt).2 = []
  ∧ (process synsets self txt).1
    = Some (mkDigraph "Thesis UML"
              [ GraphAttr [("rankdir", "BT"); ("splines", "ortho");
                           ("nodesep", "0.8"); ("ranksep", "0.8")];
                NodeAttr [("shape", "record"); ("style", "filled");
                          ("fillcolor", "#FEFECE"); ("fontname", "Helvetica");
                          ("fontsize", "12")] ]).
Proof.
  intros Hn Hnone.
  assert (classes (process synsets self txt).2 = ∅) as Hcl.
  { apply dom_empty_inv_L, set_eq. intros n. split; [|set_solver].
    intros Hin.
    assert (names_from_doc (parse txt) (process synsets self txt).2) as Hnames.
    { apply (steps_invariant (parse txt) (names_from_doc (parse txt)) _ _
               (step_names (parse txt))
               (process_steps synsets self parse txt Hn)).
      intros m Hm. cbn in Hm. set_solver. }
    destruct (Hnames n Hin) as (t & Ht & Hdep & _). by destruct (Hnone t Ht). }
  assert (relationships (process synsets self txt).2 = []) as Hrel.
  { assert (endpoints_registered (process synsets self txt).2) as Hinv.
    { rewrite (process_with_model synsets self parse txt Hn). cbn [snd].
      apply extract_endpoints. intros r Hr. cbn in Hr. by apply elem_of_nil in Hr. }
    destruct (relationships (process synsets self txt).2) as [|r rs] eqn:Hrs;
      [done|].
    destruct (Hinv r) as [Hs _]; [rewrite Hrs; left|].
    rewrite Hcl in Hs. set_solver. }
  split; [done|]. split; [done|].
  rewrite (process_with_model synsets self parse txt Hn) in Hcl, Hrel |- *.
  cbn [fst snd] in *. unfold generate_graphviz, unique_rels.
  rewrite Hcl, Hrel. by rewrite map_to_list_empty, list_to_set_nil, elements_empty.
Qed.

Lemma process_without_arguments_witness :
  classes (process Samples.no_senses (init (Some Samples.hello_parser))
             "Hello there.").2 = ∅
  ∧ relationships (process Samples.no_senses (init (Some Samples.hello_parser))
                     "Hello there.").2 = []
  ∧ (process Samples.no_senses (init (Some Samples.hello_parser))
       "Hello there.").1
    = Some (mkDigraph "Thesis UML"
              [ GraphAttr [("rankdir", "BT"); ("splines", "ortho");
                           ("nodesep", "0.8"); ("ranksep", "0.8")];
                NodeAttr [("shape", "record"); ("style", "filled");
                          ("fillcolor", "#FEFECE"); ("fontname", "Helvetica");
                          ("fontsize", "12")] ]).
Proof.
  apply (process_without_arguments Samples.no_senses
           (init (Some Samples.hello_parser)) Samples.hello_parser
           "Hello there." eq_refl).
  intros t Ht.
  repeat (apply elem_of_cons in Ht as [-> | Ht];
          [intros Hd; by closed_not_elem Hd|]).
  by apply elem_of_nil in Ht.
Defined.

(** X11: [generate_graphviz] declares exactly one node per registered
    class, named after it, and makes all its [node] calls before its first
    [edge] call, after the two attribute statements. *)
Theorem generate_graphviz_nodes (self : ThesisUMLSystem) :
  node_names (generate_graphviz self) ≡ₚ elements (dom (classes self))
  ∧ NoDup (node_names (generate_graphviz self))
  ∧ length (node_names (generate_graphviz self)) = size (classes self)
  ∧ ∃ graph_kv node_kv nodes edges,
      body (generate_graphviz self)
      = [GraphAttr graph_kv; NodeAttr node_kv] ++ nodes ++ edges
      ∧ Forall (λ s, ∃ n l, s = Node n l) nodes
      ∧ Forall (λ s, ∃ a b kv, s = Edge a b kv) edges.
Proof.
  assert (node_names (generate_graphviz self) = (map_to_list (classes self)).*1)
    as Hnames.
  { unfold node_names, generate_graphviz. cbn [body].
    rewrite !omap_app.
    assert (omap (λ s, match s with Node n _ => Some n | _ => None end)
              (edge_of <$> elements (unique_rels self)) = []) as ->.
    { induction (elements (unique_rels self)) as [|r l IH]; [done|].
      cbn. destruct (edge_endpoints r) as [kv ->]. apply IH. }
    rewrite app_nil_r. cbn [omap list_omap app].
    induction (map_to_list (classes self)) as [|[n e] l IH]; [done|].
    cbn. f_equal. apply IH. }
  rewrite Hnames. split; [|split; [|split]].
  - apply NoDup_Permutation;
      [apply NoDup_fst_map_to_list|apply NoDup_elements|].
    intros n. rewrite elem_of_elements, elem_of_dom, list_elem_of_fmap. split.
    + intros ([n' e] & -> & Hin). apply elem_of_map_to_list in Hin. by exists e.
    + intros [e He]. exists (n, e). split; [done|]. by apply elem_of_map_to_list.
  - apply NoDup_fst_map_to_list.
  - by rewrite length_fmap, length_map_to_list.
  - eexists _, _, (node_of <$> map_to_list (classes self)),
      (edge_of <$> elements (unique_rels self)).
    split; [done|]. split.
    + apply Forall_fmap, Forall_forall. intros [n e] _. by eexists _, _.
    + apply Forall_fmap, Forall_forall. intros r _.
      destruct (edge_endpoints r) as [kv Hkv]. cbn. by eexists _, _, _.
Qed.

Lemma append_empty_inv (s t : string) : s +:+ t = EmptyString → t = EmptyString.
Proof. by destruct s. Qed.

Lemma append_append (s t u : string) : (s +:+ t) +:+ u = s +:+ (t +:+ u).
Proof.
  induction s as [|c s IH]; [done|].
  change (String c ((s +:+ t) +:+ u) = String c (s +:+ (t +:+ u))).
  by rewrite IH.
Qed.

(** X12: a compartment of a node label is the empty string exactly when
    the class has no attribute (no method); a single attribute [a] is
    written "- a\l" and a single method [m] is written "+ m()\l". *)
Theorem node_label_compartments (e : ClassEntry) :
  (attrs_text e = EmptyString ↔ attributes e = ∅)
  ∧ (methods_text e = EmptyString ↔ methods e = ∅)
  ∧ (∀ a, attributes e = {[ a ]} → attrs_text e = "- " +:+ a +:+ "\l")
  ∧ (∀ m, methods e = {[ m ]} → methods_text e = "+ " +:+ m +:+ "()\l").
Proof.
  unfold attrs_text, methods_text. split; [|split; [|split]].
  - case_decide as He; [done|]. split; [|done].
    intros Happ. by apply append_empty_inv in Happ.
  - case_decide as He; [done|]. split; [|done].
    intros Happ. by apply append_empty_inv in Happ.
  - intros a Ha. rewrite Ha, decide_False, elements_singleton.
    + cbn. by rewrite append_append.
    + intros Hemp. assert (a ∈ (∅ : gset string)) as Hin; [|set_solver].
      rewrite <- Hemp. set_solver.
  - intros m Hm. rewrite Hm, decide_False, elements_singleton.
    + cbn. by rewrite !append_append.
    + intros Hemp. assert (m ∈ (∅ : gset string)) as Hin; [|set_solver].
      rewrite <- Hemp. set_solver.
Qed.

Lemma node_label_compartments_witness :
  attrs_text (mkEntry {[ "engine" ]} ∅) = "- engine\l"
  ∧ methods_text (mkEntry {[ "engine" ]} ∅) = EmptyString.
Proof.
  split.
  - exact (proj1 (proj2 (proj2 (node_label_compartments
                                  (mkEntry {[ "engine" ]} ∅)))) "engine" eq_refl).
  - by apply (proj1 (proj2 (node_label_compartments (mkEntry {[ "engine" ]} ∅)))).
Defined.

(** ** Rule 1 *)

(** X14: Rule 1 registers the capitalized lemma of a token exactly when
    the token is a NOUN or PROPN in a subject or object position, its
    lowercased lemma is neither "user" nor "data", and the ontology check
    passes; otherwise the engine is unchanged.  Registration is idempotent:
    an entry that exists is kept as it is, a new one starts empty, and the
    relationships are never touched. *)
Theorem rule1_registers (synsets : string → option (list Synset))
    (self : ThesisUMLSystem) (token : Token) :
  let c := capitalize (lemma_ token) in
  let qualifies :=
    pos_ token ∈ ["NOUN"; "PROPN"]
    ∧ dep_ token ∈ ["nsubj"; "dobj"; "pobj"; "nsubjpass"]
    ∧ (lower (lemma_ token) ∉ ["user"; "data"])
    ∧ check_ontology synsets (lower (lemma_ token)) = true in
  let self' := rule1 synsets self token in
  (qualifies → dom (classes self') = {[ c ]} ∪ dom (classes self))
  ∧ (qualifies → c ∉ dom (classes self) → classes self' !! c = Some new_entry)
  ∧ (¬ qualifies → self' = self)
  ∧ (∀ n e, classes self !! n = Some e → classes self' !! n = Some e)
  ∧ relationships self' = relationships self.
Proof.
  intros c qualifies self'. subst self'. unfold rule1.
  split; [|split; [|split; [|split]]].
  - intros (Hpos & Hdep & Hdeny & Hont).
    rewrite decide_True by done. rewrite decide_True by done.
    rewrite Hont. cbn. apply dom_register.
  - intros (Hpos & Hdep & Hdeny & Hont) Hc.
    rewrite decide_True by done. rewrite decide_True by done.
    rewrite Hont. cbn. unfold register. rewrite decide_False by done.
    apply lookup_insert_eq.
  - intros Hnot. case_decide as Hq; [|done]. destruct Hq as [Hpos Hdep].
    case_decide as Hdeny; [|done].
    destruct (check_ontology synsets (lower (lemma_ token))) eqn:Hont; [|done].
    by destruct Hnot.
  - intros n e Hn. repeat case_decide; try done.
    destruct (check_ontology _ _); [|done]. cbn. by apply register_lookup_old.
  - repeat case_decide; try done. by destruct (check_ontology _ _).
Qed.

Lemma rule1_registers_witness :
  rule1 Samples.no_senses Samples.car_only
    (mkToken 1 "USER" "User" "PROPN" "NNP" "nsubj" 2)
  = Samples.car_only.
Proof.
  apply (proj1 (proj2 (proj2 (rule1_registers Samples.no_senses Samples.car_only
                                (mkToken 1 "USER" "User" "PROPN" "NNP" "nsubj" 2))))).
  intros (_ & _ & Hdeny & _). apply Hdeny. cbn. left.
Defined.

(** ** Associations *)

Lemma process_token_no_self_association synsets doc self token :
  dep_ token ≠ "agent" →
  (∀ r, r ∈ relationships self →
        rel_kind r = "Association" → rel_source r ≠ rel_target r) →
  ∀ r, r ∈ relationships (process_token synsets doc self token) →
       rel_kind r = "Association" → rel_source r ≠ rel_target r.
Proof.
  intros Hdep Hinv. unfold process_token, rule5.
  rewrite decide_False by (by intros [? _]).
  rewrite <- (rule1_relationships synsets self token) in Hinv.
  revert Hinv. generalize (rule1 synsets self token). intros s1 Hinv.
  unfold rules234, rule2, rule3, rule4.
  repeat (case_decide || case_match); try done; cbn; intros r Hr;
    apply elem_of_app in Hr as [Hr|Hr]; try (by apply Hinv);
    apply list_elem_of_singleton in Hr as ->; cbn; try discriminate.
  intros _. naive_solver.
Qed.

(** X15: only the passive-voice rule can link a class to itself.  If the
    parse has no token with the dependency label "agent", no Association
    that [process] collects has the same class at both ends. *)
Theorem process_no_self_association (synsets : string → option (list Synset))
    (self : ThesisUMLSystem) (parse : string → Doc) (txt : string)
    (r : Relationship) :
  nlp self = Some parse →
  (∀ t, t ∈ parse txt → dep_ t ≠ "agent") →
  r ∈ relationships (process synsets self txt).2 →
  rel_kind r = "Association" →
  rel_source r ≠ rel_target r.
Proof.
  intros Hn Hno. rewrite (process_with_model synsets self parse txt Hn).
  cbn [snd]. revert r.
  assert (∀ ts s,
            (∀ t, t ∈ ts → dep_ t ≠ "agent") →
            (∀ r, r ∈ relationships s →
                  rel_kind r = "Association" → rel_source r ≠ rel_target r) →
            ∀ r, r ∈ relationships (extract synsets (parse txt) s ts) →
                 rel_kind r = "Association" → rel_source r ≠ rel_target r)
    as Hgen.
  { induction ts as [|t ts IH]; intros s Hts Hinv; [done|].
    cbn. apply IH.
    - intros x Hx. apply Hts. by right.
    - apply process_token_no_self_association; [|done]. apply Hts. left. }
  apply Hgen; [done|]. intros r Hr. cbn in Hr. by apply elem_of_nil in Hr.
Qed.

Lemma process_no_self_association_witness :
  rel_source ("Admin", "Association", "Account", "store")
  ≠ rel_target ("Admin", "Association", "Account", "store").
Proof.
  apply (process_no_self_association Samples.no_senses
           (init (Some Samples.keep_parser)) Samples.keep_parser
           "Accounts exist. The admin stores accounts."
           ("Admin", "Association", "Account", "store") eq_refl).
  - intros t Ht.
    repeat (apply elem_of_cons in Ht as [-> | Ht]; [discriminate|]).
    by apply elem_of_nil in Ht.
  - vm_compute. left.
  - reflexivity.
Defined.

Lemma capitalize_denied (l : string) :
  capitalize l = "User" ∨ capitalize l = "Data" →
  lower l ∈ ["user"; "data"].
Proof.
  destruct l as [|c r]; [by intros [|]|]. cbn [capitalize lower].
  intros [[= Hc Hr]|[= Hc Hr]]; rewrite Hr.
  - assert (lower_char c = "u"%char) as ->; [|left].
    revert Hc. destruct c as [[] [] [] [] [] [] [] []]; by vm_compute.
  - assert (lower_char c = "d"%char) as ->; [|right; left].
    revert Hc. destruct c as [[] [] [] [] [] [] [] []]; by vm_compute.
Qed.

(** X16: without passive voice the filters of Rule 1 decide alone.  If the
    parse has no token with the dependency label "agent", every class that
    [process] registers is the capitalized lemma of a NOUN or PROPN token
    in a subject or object position whose lowercased lemma is not on the
    deny list and passes the ontology check; in particular neither "User"
    nor "Data" is ever registered. *)
Theorem process_classes_filtered (synsets : string → option (list Synset))
    (self : ThesisUMLSystem) (parse : string → Doc) (txt : string) :
  nlp self = Some parse →
  (∀ t, t ∈ parse txt → dep_ t ≠ "agent") →
  (∀ n, n ∈ dom (classes (process synsets self txt).2) →
     ∃ t, t ∈ parse txt
          ∧ pos_ t ∈ ["NOUN"; "PROPN"]
          ∧ dep_ t ∈ ["nsubj"; "dobj"; "pobj"; "nsubjpass"]
          ∧ (lower (lemma_ t) ∉ ["user"; "data"])
          ∧ check_ontology synsets (lower (lemma_ t)) = true
          ∧ n = capitalize (lemma_ t))
  ∧ ("User" ∉ dom (classes (process synsets self txt).2))
  ∧ ("Data" ∉ dom (classes (process synsets self txt).2)).
Proof.
  intros Hn Hno.
  set (P := λ s : ThesisUMLSystem, ∀ n, n ∈ dom (classes s) →
     ∃ t, t ∈ parse txt
          ∧ pos_ t ∈ ["NOUN"; "PROPN"]
          ∧ dep_ t ∈ ["nsubj"; "dobj"; "pobj"; "nsubjpass"]
          ∧ (lower (lemma_ t) ∉ ["user"; "data"])
          ∧ check_ontology synsets (lower (lemma_ t)) = true
          ∧ n = capitalize (lemma_ t)).
  assert (∀ s t, t ∈ parse txt → P s →
            P (process_token synsets (parse txt) s t)) as Hstep.
  { intros s t Ht Hs n. unfold process_token, rule5.
    rewrite decide_False by (intros [Hd _]; by apply (Hno t Ht)).
    rewrite rules234_keys. unfold rule1.
    case_decide as Hq; [|apply Hs]. destruct Hq as [Hpos Hdep].
    case_decide as Hdeny; [|apply Hs].
    destruct (check_ontology synsets (lower (lemma_ t))) eqn:Hont; [|apply Hs].
    cbn. rewrite dom_register. intros Hin.
    apply elem_of_union in Hin as [Hin|Hin]; [|by apply Hs].
    apply elem_of_singleton in Hin as ->. by exists t. }
  assert (P (process synsets self txt).2) as Hfinal.
  { rewrite (process_with_model synsets self parse txt Hn). cbn [snd].
    assert (∀ ts s, (∀ t, t ∈ ts → t ∈ parse txt) → P s →
              P (extract synsets (parse txt) s ts)) as Hgen.
    { induction ts as [|t ts IH]; intros s Hts Hs; [done|].
      cbn. apply IH.
      - intros x Hx. apply Hts. by right.
      - apply Hstep; [|done]. apply Hts. left. }
    apply Hgen; [done|]. intros n Hin. cbn in Hin. set_solver. }
  split; [done|]. split.
  - intros Hin. destruct (Hfinal _ Hin) as (t & _ & _ & _ & Hdeny & _ & Heq).
    apply Hdeny, capitalize_denied. by left.
  - intros Hin. destruct (Hfinal _ Hin) as (t & _ & _ & _ & Hdeny & _ & Heq).
    apply Hdeny, capitalize_denied. by right.
Qed.

Lemma process_classes_filtered_witness :
  "User" ∉ dom (classes (process Samples.no_senses
                           (init (Some Samples.team_parser))
                           "The user, the admin manage accounts.").2).
Proof.
  refine (proj1 (proj2 (process_classes_filtered Samples.no_senses
                          (init (Some Samples.team_parser)) Samples.team_parser
                          "The user, the admin manage accounts." eq_refl _))).
  intros t Ht.
  repeat (apply elem_of_cons in Ht as [-> | Ht]; [discriminate|]).
  by apply elem_of_nil in Ht.
Defined.

(** ** The validation widget *)

(** X13: when the widget computes its metrics, the true and false
    positives add up to the number of detected (lowercased) class names,
    the true positives and false negatives add up to the number of expected
    names, and the precision denominator is positive; the metrics are
    skipped exactly when the registry of the last run is empty. *)
Theorem metric_counts_partition (exp : gset string)
    (generated_classes : gmap string ClassEntry) :
  (metric_counts exp generated_classes = None ↔ generated_classes = ∅)
  ∧ ∀ c, metric_counts exp generated_classes = Some c →
      (tp c + fp c = size (set_map (D:=gset string) lower (dom generated_classes))
       ∧ tp c + fn c = size exp
       ∧ 0 < tp c + fp c)%nat.
Proof.
  unfold metric_counts. split.
  - by case_decide.
  - intros c. case_decide as Hne; [done|]. intros [= <-]. cbn [tp fp fn].
    set (det := set_map (D:=gset string) lower (dom generated_classes)).
    assert (size (exp ∩ det) ≤ size det)%nat as H1.
    { apply subseteq_size. set_solver. }
    assert (size (exp ∩ det) ≤ size exp)%nat as H2.
    { apply subseteq_size. set_solver. }
    pose proof (size_difference_alt det exp) as H3.
    pose proof (size_difference_alt exp det) as H4.
    assert (det ∩ exp = exp ∩ det) as Hcomm by set_solver.
    rewrite Hcomm in H3.
    assert (size det ≠ 0)%nat as H5.
    { apply size_non_empty_iff. intros Hemp.
      apply map_choose in Hne as (n & e & Hn).
      assert (lower n ∈ det) as Hin.
      { apply elem_of_map. exists n. split; [done|]. apply elem_of_dom. by exists e. }
      set_solver. }
    lia.
Qed.

Lemma metric_counts_partition_witness :
  (2 + 0 = size (set_map (D:=gset string) lower
                   (dom (<["Account" := new_entry]>
                           ({[ "Administrator" := new_entry ]}
                            : gmap string ClassEntry))))
   ∧ 2 + 1 = size ({[ "account"; "administrator"; "customer" ]} : gset string)
   ∧ 0 < 2 + 0)%nat.
Proof.
  exact (proj2 (metric_counts_partition
                  {[ "account"; "administrator"; "customer" ]}
                  (<["Account" := new_entry]> {[ "Administrator" := new_entry ]}))
           (mkCounts 2 0 1) eq_refl).
Defined.
